(** * Component Detachment Tracker: the scan and navigation core

    A shallow embedding of the plugin's two scan pipelines and of its
    request dispatcher.

    - Pipeline 1 (instance usage): [InstanceUsage.Js] follows the compiled
      script, [InstanceUsage.Ts] the TypeScript it was compiled from.
    - Pipeline 2 (integrity): [Integrity.Js] and [Integrity.Ts] likewise.

    The host ([figma]) is input: the pages it lists, what its [findAll]
    answers for a page, its variable registry and its node lookup.  A host
    method call may fault; a fault is a JavaScript [throw] and is carried by
    [Completion].  The calls the plugin makes towards the host and the panel
    ([notify], [postMessage], the [currentPage] assignment,
    [scrollAndZoomIntoView]) are recorded, in order, in the [World]. *)

From Stdlib Require Import OrdersEx.
From stdpp Require Import gmap strings list sorting.

Set Warnings "-clear-no-such-hyp".

Local Open Scope Z_scope.
Local Open Scope nat_scope.

(** ** Completions: a value, or a thrown value *)

(** What a [catch] clause receives: an [Error] object with its message
    ([error instanceof Error]), or any other thrown value. *)
Inductive Thrown :=
| ThrownError (message : string)
| ThrownValue (v : string).

Inductive Completion (A : Type) :=
| Normal (a : A)
| Throw (e : Thrown).
Arguments Normal {A} a.
Arguments Throw {A} e.

#[global] Instance Completion_ret : MRet Completion := λ A a, Normal a.
#[global] Instance Completion_bind : MBind Completion := λ A B f m,
  match m with
  | Normal a => f a
  | Throw e => Throw e
  end.

(** [for (const x of xs) body], the loop's variables threaded as [s]. *)
Fixpoint for_of {A S : Type} (xs : list A) (body : S → A → Completion S) (s : S)
  : Completion S :=
  match xs with
  | [] => Normal s
  | x :: xs' =>
      match body s x with
      | Normal s' => for_of xs' body s'
      | Throw e => Throw e
      end
  end.

(** ** JavaScript values and operators the scripts use *)

Inductive JsValue :=
| VUndefined
| VNull
| VBool (b : bool)
| VNumber (z : Z)
| VString (s : string).

(** [v === s] for a string literal [s]. *)
Definition strict_eq_string (v : JsValue) (s : string) : bool :=
  match v with
  | VString t => String.eqb t s
  | VUndefined | VNull | VBool _ | VNumber _ => false
  end.

(** [a || b] on two strings: the empty string is falsy. *)
Definition str_or (a b : string) : string :=
  if String.eqb a EmptyString then b else a.

(** [a || undefined] on a string, as an optional field. *)
Definition str_or_undefined (a : string) : option string :=
  if String.eqb a EmptyString then None else Some a.

(** [o || b] where [o] is an optional string field. *)
Definition opt_or (o : option string) (b : string) : string :=
  match o with
  | Some a => str_or a b
  | None => b
  end.

(** A JavaScript [Map] with string keys: entries in insertion order. *)
Definition JsMap (V : Type) := list (string * V).

Fixpoint Map_get {V} (m : JsMap V) (k : string) : option V :=
  match m with
  | [] => None
  | (k', v) :: m' => if String.eqb k' k then Some v else Map_get m' k
  end.

Definition Map_has {V} (m : JsMap V) (k : string) : bool :=
  match Map_get m k with Some _ => true | None => false end.

(** [set] keeps the position of a key already present and appends a new one. *)
Fixpoint Map_set {V} (m : JsMap V) (k : string) (v : V) : JsMap V :=
  match m with
  | [] => [(k, v)]
  | (k', v') :: m' =>
      if String.eqb k' k then (k', v) :: m' else (k', v') :: Map_set m' k v
  end.

Definition Map_values {V} (m : JsMap V) : list V := m.*2.

(** A plain object read as a record of properties: [Object.keys(o)] and
    [o[k]] ([None] is [undefined]). *)
Definition Object_keys {V} (o : list (string * V)) : list string := o.*1.

Definition get_property {V} (o : list (string * V)) (k : string) : option V :=
  Map_get o k.

(** [Array.prototype.sort(comparefn)]: a stable sort; [comparefn a b <= 0]
    keeps [a] before [b]. *)
Fixpoint sort_insert {A} (comparefn : A → A → Z) (x : A) (l : list A) : list A :=
  match l with
  | [] => [x]
  | y :: l' =>
      if (comparefn x y <=? 0)%Z then x :: y :: l'
      else y :: sort_insert comparefn x l'
  end.

Definition Array_sort {A} (comparefn : A → A → Z) (l : list A) : list A :=
  foldr (sort_insert comparefn) [] l.

(** ** The host document *)

(** A component definition, as read through [instance.mainComponent]. *)
Record ComponentNode := {
  comp_id : string;
  comp_key : string;
  comp_name : string
}.

(** [node.mainComponent]: the property may be unset, null, or a definition. *)
Inductive MainComponentRef :=
| MainUndefined
| MainNull
| MainRef (main : ComponentNode).

(** One entry of [node.boundVariables]: a falsy entry, or a truthy value
    whose [id] property reads as some value ([VUndefined] when it has
    none). *)
Inductive Binding :=
| BindingAbsent
| BindingObject (id : JsValue).

(** [node.boundVariables]: no such property, a falsy value, or an object
    whose keys are listed in [Object.keys] order. *)
Inductive BoundVariables :=
| BoundMissing
| BoundFalsy
| BoundObject (entries : list (string * Binding)).

(** [node.parent] is [None] when the node has no [parent] property,
    [Some None] when it is null. *)
#[warnings="-register-all"]
Inductive BaseNode := mkBaseNode {
  node_id : string;
  node_name : string;
  node_type : string;
  node_parent : option (option BaseNode);
  mainComponent : MainComponentRef;
  boundVariables : BoundVariables
}.

(** A page as the scan sees it: [descendants] is what the host's traversal
    of the page yields (every descendant, in the host's order), or the
    fault it raises. *)
Record PageNode := {
  page_id : string;
  page_name : string;
  descendants : Completion (list BaseNode)
}.

(** A live variable of the host's registry. *)
Record VariableNode := { variable_id : string }.

(** [figma]: the pages of [figma.root.children], [figma.variables] (absent
    on hosts without the variables API) with its [getVariableById], and
    [figma.getNodeById].  The two lookups are host calls: they answer, or
    fault. *)
Record Figma := {
  root_children : list PageNode;
  variables : option (string → Completion (option VariableNode));
  getNodeById : string → Completion (option BaseNode)
}.

(** [page.findAll(callback)] *)
Definition findAll (page : PageNode) (callback : BaseNode → bool)
  : Completion (list BaseNode) :=
  nodes ← descendants page; mret (filter (λ node, callback node = true) nodes).

(** ** The world the dispatcher acts on *)

(** Messages posted to the panel; [D] is the pipeline's summary type. *)
Inductive UiMessage (D : Type) :=
| Ready
| Results (data : D)
| Error (message : string).
Arguments Ready {D}.
Arguments Results {D} data.
Arguments Error {D} message.

(** The calls made towards the host, as they are made. *)
Inductive HostCall (D : Type) :=
| Notify (message : string) (timeout : nat)
| PostMessage (m : UiMessage D)
| SetCurrentPage (page : BaseNode)
| ScrollAndZoomIntoView (nodes : list BaseNode).
Arguments Notify {D} message timeout.
Arguments PostMessage {D} m.
Arguments SetCurrentPage {D} page.
Arguments ScrollAndZoomIntoView {D} nodes.

Record World (D : Type) := {
  currentPage : BaseNode;
  calls : list (HostCall D)
}.
Arguments currentPage {D} w.
Arguments calls {D} w.

Inductive Outcome (D A : Type) :=
| Returned (a : A) (w : World D)
| Raised (e : Thrown) (w : World D).
Arguments Returned {D A} a w.
Arguments Raised {D A} e w.

(** A script function with effects on the world. *)
Definition Script (D A : Type) := World D → Outcome D A.

Definition script_ret {D A} (a : A) : Script D A := λ w, Returned a w.

Definition script_bind {D A B} (m : Script D A) (f : A → Script D B) : Script D B :=
  λ w, match m w with
       | Returned a w' => f a w'
       | Raised e w' => Raised e w'
       end.

Declare Scope script_scope.
Delimit Scope script_scope with script.
Notation "x <- m ;; k" := (script_bind m (λ x, k))
  (at level 100, m at next level, right associativity) : script_scope.
Notation "m ;;; k" := (script_bind m (λ _, k))
  (at level 100, right associativity) : script_scope.

(** A call whose completion does not touch the world. *)
Definition call {D A} (c : Completion A) : Script D A :=
  λ w, match c with
       | Normal a => Returned a w
       | Throw e => Raised e w
       end.

(** [try { body } catch (error) { handler }] *)
Definition try_catch {D A} (body : Script D A) (handler : Thrown → Script D A)
  : Script D A :=
  λ w, match body w with
       | Returned a w' => Returned a w'
       | Raised e w' => handler e w'
       end.

Definition record_call {D} (c : HostCall D) : Script D unit :=
  λ w, Returned tt {| currentPage := currentPage w; calls := calls w ++ [c] |}.

(** [figma.notify(message, { timeout })] *)
Definition notify {D} (message : string) (timeout : nat) : Script D unit :=
  record_call (Notify message timeout).

(** [figma.ui.postMessage(m)] *)
Definition postMessage {D} (m : UiMessage D) : Script D unit :=
  record_call (PostMessage m).

(** [figma.currentPage = page] *)
Definition set_currentPage {D} (page : BaseNode) : Script D unit :=
  λ w, Returned tt {| currentPage := page; calls := calls w ++ [SetCurrentPage page] |}.

(** [figma.viewport.scrollAndZoomIntoView(nodes)] *)
Definition scrollAndZoomIntoView {D} (nodes : list BaseNode) : Script D unit :=
  record_call (ScrollAndZoomIntoView nodes).

(** A message received by [figma.ui.onmessage]: a value that is not a
    non-null object, or an object with its [type] field and, when it has
    one, its [nodeId] field. *)
Inductive PluginMessage :=
| NotObject (v : JsValue)
| MessageObject (type : JsValue) (nodeId : option JsValue).

(** ** Pipeline 1: instance usage *)

Module InstanceUsage.

Record InstanceUsage := {
  usage_id : string;
  usage_name : string;
  usage_componentId : string;
  usage_componentKey : option string;
  usage_componentName : string
}.

Record ComponentGroup := {
  componentId : string;
  componentKey : option string;
  componentName : string;
  instances : list InstanceUsage
}.

Record PageData := {
  pageId : string;
  pageName : string;
  instanceCount : nat;
  componentGroups : list ComponentGroup
}.

Record SummaryData := {
  totalInstances : nat;
  totalUniqueComponents : nat;
  pageBreakdown : list PageData
}.

(** [group.instances.push(usage)] *)
Definition push_instance (group : ComponentGroup) (usage : InstanceUsage)
  : ComponentGroup :=
  {| componentId := componentId group;
     componentKey := componentKey group;
     componentName := componentName group;
     instances := instances group ++ [usage] |}.

(** [group.instances.sort(comparefn)] *)
Definition sort_instances (comparefn : InstanceUsage → InstanceUsage → Z)
    (group : ComponentGroup) : ComponentGroup :=
  {| componentId := componentId group;
     componentKey := componentKey group;
     componentName := componentName group;
     instances := Array_sort comparefn (instances group) |}.

(** The variables of [scanFile]'s loop: [pageBreakdown], [totalInstances]
    and [uniqueComponentKeys]. *)
Definition ScanVars : Type := list PageData * nat * gset string.

(** The compiled script. *)
Module Js.
Section WithLocale.
(** [String.prototype.localeCompare] of the host's locale. *)
Variable localeCompare : string → string → Z.

Definition getInstancesForPage (page : PageNode) : Completion (list ComponentGroup) :=
  instances ← findAll page (λ node, String.eqb (node_type node) "INSTANCE");
  groups ← for_of instances (λ (groups : JsMap ComponentGroup) instance,
    match mainComponent instance with
    | MainRef main =>
        let componentId := comp_id main in
        let groupKey := str_or (comp_key main) componentId in
        let groups :=
          if Map_has groups groupKey then groups
          else Map_set groups groupKey
                 {| componentId := componentId;
                    componentKey := str_or_undefined (comp_key main);
                    componentName := str_or (comp_name main) "Unnamed Component";
                    instances := [] |} in
        match Map_get groups groupKey with
        | Some group =>
            Normal (Map_set groups groupKey (push_instance group
              {| usage_id := node_id instance;
                 usage_name := str_or (node_name instance) "Instance";
                 usage_componentId := componentId;
                 usage_componentKey := str_or_undefined (comp_key main);
                 usage_componentName := str_or (comp_name main) "Unnamed Component" |}))
        | None => Throw (ThrownError "Cannot read properties of undefined (reading 'instances')")
        end
    | MainUndefined | MainNull => Normal groups
    end) [];
  let sortedGroups :=
    Array_sort (λ a b, localeCompare (componentName a) (componentName b))
               (Map_values groups) in
  let sortedGroups :=
    sort_instances (λ a b, localeCompare (usage_name a) (usage_name b)) <$> sortedGroups in
  mret sortedGroups.

Definition scanFile (figma : Figma) : Completion SummaryData :=
  let pages := root_children figma in
  '(pageBreakdown, totalInstances, uniqueComponentKeys) ←
    for_of pages (λ '((pageBreakdown, totalInstances, uniqueComponentKeys) : ScanVars) page,
      componentGroups ← getInstancesForPage page;
      if length componentGroups =? 0 then
        Normal (pageBreakdown, totalInstances, uniqueComponentKeys)
      else
        let instanceCount :=
          foldl (λ acc group, acc + length (instances group)) 0 componentGroups in
        let totalInstances := totalInstances + instanceCount in
        let uniqueComponentKeys :=
          foldl (λ keys group,
                   {[ opt_or (componentKey group) (componentId group) ]} ∪ keys)
                uniqueComponentKeys componentGroups in
        Normal (pageBreakdown ++ [{| pageId := page_id page;
                                     pageName := page_name page;
                                     instanceCount := instanceCount;
                                     componentGroups := componentGroups |}],
                totalInstances, uniqueComponentKeys))
      ([], 0, ∅);
  mret {| totalInstances := totalInstances;
          totalUniqueComponents := size uniqueComponentKeys;
          pageBreakdown := pageBreakdown |}.

Definition sendResultsToUI (data : SummaryData) : Script SummaryData unit :=
  postMessage (Results data).

Definition notifyEmptyState : Script SummaryData unit :=
  postMessage (Results {| totalInstances := 0;
                          totalUniqueComponents := 0;
                          pageBreakdown := [] |}).

Definition handleScanRequest (figma : Figma) : Script SummaryData unit :=
  try_catch
    (summary <- call (scanFile figma) ;;
     if length (pageBreakdown summary) =? 0 then notifyEmptyState
     else sendResultsToUI summary)%script
    (λ error,
       let message :=
         match error with
         | ThrownError message => message
         | ThrownValue _ => "Unexpected error during scan"
         end in
       (notify message 2000 ;;; postMessage (Error message))%script).

(** The [while (current)] loop of [resolvePage]. *)
Fixpoint resolvePage_loop (current : BaseNode) : option BaseNode :=
  if String.eqb (node_type current) "PAGE" then Some current
  else
    match node_parent current with
    | Some (Some parent) => resolvePage_loop parent
    | Some None | None => None
    end.

Definition resolvePage (node : BaseNode) : option BaseNode :=
  match node_parent node with
  | Some (Some current) => resolvePage_loop current
  | Some None | None => None
  end.

Definition focusNode (figma : Figma) (nodeId : string) : Script SummaryData unit :=
  (node <- call (getNodeById figma nodeId) ;;
   match node with
   | None =>
       notify "Target node not found. It may have been deleted." 2000 ;;;
       postMessage (Error "Node not found or removed.")
   | Some node =>
       let page := resolvePage node in
       match page with
       | Some page => set_currentPage page
       | None => script_ret tt
       end ;;;
       scrollAndZoomIntoView [node]
   end)%script.

(** [figma.ui.onmessage] *)
Definition onmessage (figma : Figma) (pluginMessage : PluginMessage)
  : Script SummaryData unit :=
  match pluginMessage with
  | NotObject _ => script_ret tt
  | MessageObject type nodeId =>
      if strict_eq_string type "scan" then handleScanRequest figma
      else if strict_eq_string type "navigate" then
        match nodeId with
        | Some (VString nodeId) => focusNode figma nodeId
        | Some _ | None => script_ret tt
        end
      else script_ret tt
  end.

(** [figma.on('run', ...)] *)
Definition on_run : Script SummaryData unit := postMessage Ready.
End WithLocale.
End Js.

(** The TypeScript source.  Its interfaces are the records above; the casts
    ([as InstanceNode[]], [as readonly PageNode[]]) and the non-null
    assertion on [groups.get(groupKey)] leave no trace at run time. *)
Module Ts.
Section WithLocale.
Variable localeCompare : string → string → Z.

Definition getInstancesForPage (page : PageNode) : Completion (list ComponentGroup) :=
  instances ← findAll page (λ node, String.eqb (node_type node) "INSTANCE");
  groups ← for_of instances (λ (groups : JsMap ComponentGroup) instance,
    match mainComponent instance with
    | MainRef main =>
        let componentId := comp_id main in
        let groupKey := str_or (comp_key main) componentId in
        let groups :=
          if Map_has groups groupKey then groups
          else Map_set groups groupKey
                 {| componentId := componentId;
                    componentKey := str_or_undefined (comp_key main);
                    componentName := str_or (comp_name main) "Unnamed Component";
                    instances := [] |} in
        match Map_get groups groupKey with
        | Some group =>
            Normal (Map_set groups groupKey (push_instance group
              {| usage_id := node_id instance;
                 usage_name := str_or (node_name instance) "Instance";
                 usage_componentId := componentId;
                 usage_componentKey := str_or_undefined (comp_key main);
                 usage_componentName := str_or (comp_name main) "Unnamed Component" |}))
        | None => Throw (ThrownError "Cannot read properties of undefined (reading 'instances')")
        end
    | MainUndefined | MainNull => Normal groups
    end) [];
  let sortedGroups :=
    Array_sort (λ a b, localeCompare (componentName a) (componentName b))
               (Map_values groups) in
  let sortedGroups :=
    sort_instances (λ a b, localeCompare (usage_name a) (usage_name b)) <$> sortedGroups in
  mret sortedGroups.

Definition scanFile (figma : Figma) : Completion SummaryData :=
  let pages := root_children figma in
  '(pageBreakdown, totalInstances, uniqueComponentKeys) ←
    for_of pages (λ '((pageBreakdown, totalInstances, uniqueComponentKeys) : ScanVars) page,
      componentGroups ← getInstancesForPage page;
      if length componentGroups =? 0 then
        Normal (pageBreakdown, totalInstances, uniqueComponentKeys)
      else
        let instanceCount :=
          foldl (λ acc group, acc + length (instances group)) 0 componentGroups in
        let totalInstances := totalInstances + instanceCount in
        let uniqueComponentKeys :=
          foldl (λ keys group,
                   {[ opt_or (componentKey group) (componentId group) ]} ∪ keys)
                uniqueComponentKeys componentGroups in
        Normal (pageBreakdown ++ [{| pageId := page_id page;
                                     pageName := page_name page;
                                     instanceCount := instanceCount;
                                     componentGroups := componentGroups |}],
                totalInstances, uniqueComponentKeys))
      ([], 0, ∅);
  mret {| totalInstances := totalInstances;
          totalUniqueComponents := size uniqueComponentKeys;
          pageBreakdown := pageBreakdown |}.
End WithLocale.
End Ts.

End InstanceUsage.

(** ** Pipeline 2: integrity (detached components, broken bindings) *)

Module Integrity.

(** ['component' | 'variable'] *)
Inductive DetachedType := type_component | type_variable.

Definition DetachedType_eqb (a b : DetachedType) : bool :=
  match a, b with
  | type_component, type_component | type_variable, type_variable => true
  | type_component, type_variable | type_variable, type_component => false
  end.

Record DetachedItem := {
  item_id : string;
  item_name : string;
  item_type : DetachedType;
  item_pageId : string;
  item_pageName : string;
  item_metadata : option (list (string * string))
}.

Record PageData := {
  pageId : string;
  pageName : string;
  items : list DetachedItem
}.

Record SummaryData := {
  totalDetachedComponents : nat;
  totalDetachedVariables : nat;
  pageBreakdown : list PageData
}.

(** The variables of [scanFile]'s loop: [pageBreakdown],
    [totalDetachedComponents] and [totalDetachedVariables]. *)
Definition ScanVars : Type := list PageData * nat * nat.

(** The compiled script. *)
Module Js.

Definition isInstanceNode (node : BaseNode) : bool :=
  String.eqb (node_type node) "INSTANCE".

Definition isDetachedComponent (node : BaseNode) : bool :=
  isInstanceNode node &&
  match mainComponent node with
  | MainNull => true
  | MainUndefined | MainRef _ => false
  end.

Definition extractDetachedVariables (figma : Figma) (node : BaseNode) (page : PageNode)
  : Completion (list DetachedItem) :=
  match boundVariables node with
  | BoundObject boundVars =>
      for_of (Object_keys boundVars) (λ (items : list DetachedItem) propertyName,
        match get_property boundVars propertyName with
        | Some (BindingObject id) =>
            let variableId :=
              match id with
              | VString s => Some s
              | VUndefined | VNull | VBool _ | VNumber _ => None
              end in
            match variableId with
            | Some variableId =>
                if String.eqb variableId EmptyString then Normal items
                else
                  variable ←
                    match variables figma with
                    | Some getVariableById => getVariableById variableId
                    | None => Normal None
                    end;
                  match variable with
                  | None =>
                      Normal (items ++ [
                        {| item_id := node_id node;
                           item_name := str_or (node_name node) (node_type node)
                                        +:+ " · " +:+ propertyName;
                           item_type := type_variable;
                           item_pageId := page_id page;
                           item_pageName := page_name page;
                           item_metadata := Some [("property", propertyName)] |}])
                  | Some _ => Normal items
                  end
            | None => Normal items
            end
        | Some BindingAbsent | None => Normal items
        end) []
  | BoundMissing | BoundFalsy => Normal []
  end.

Definition getDetachedItemsForPage (figma : Figma) (page : PageNode)
  : Completion (list DetachedItem) :=
  nodes ← findAll page (λ _, true);
  for_of nodes (λ (items : list DetachedItem) node,
    let items :=
      if isDetachedComponent node then
        items ++ [{| item_id := node_id node;
                     item_name := str_or (node_name node) "Unnamed Instance";
                     item_type := type_component;
                     item_pageId := page_id page;
                     item_pageName := page_name page;
                     item_metadata := None |}]
      else items in
    variableIssues ← extractDetachedVariables figma node page;
    if 0 <? length variableIssues then Normal (items ++ variableIssues)
    else Normal items) [].

Definition scanFile (figma : Figma) : Completion SummaryData :=
  let pages := root_children figma in
  '(pageBreakdown, totalDetachedComponents, totalDetachedVariables) ←
    for_of pages
      (λ '((pageBreakdown, totalDetachedComponents, totalDetachedVariables) : ScanVars) page,
        pageItems ← getDetachedItemsForPage figma page;
        if 0 <? length pageItems then
          let totalDetachedComponents :=
            totalDetachedComponents +
            length (filter (λ item, DetachedType_eqb (item_type item) type_component = true)
                           pageItems) in
          let totalDetachedVariables :=
            totalDetachedVariables +
            length (filter (λ item, DetachedType_eqb (item_type item) type_variable = true)
                           pageItems) in
          Normal (pageBreakdown ++ [{| pageId := page_id page;
                                       pageName := page_name page;
                                       items := pageItems |}],
                  totalDetachedComponents, totalDetachedVariables)
        else Normal (pageBreakdown, totalDetachedComponents, totalDetachedVariables))
      ([], 0, 0);
  mret {| totalDetachedComponents := totalDetachedComponents;
          totalDetachedVariables := totalDetachedVariables;
          pageBreakdown := pageBreakdown |}.

Definition sendResultsToUI (data : SummaryData) : Script SummaryData unit :=
  postMessage (Results data).

Definition notifyEmptyState : Script SummaryData unit :=
  postMessage (Results {| totalDetachedComponents := 0;
                          totalDetachedVariables := 0;
                          pageBreakdown := [] |}).

Definition handleScanRequest (figma : Figma) : Script SummaryData unit :=
  try_catch
    (summary <- call (scanFile figma) ;;
     if length (pageBreakdown summary) =? 0 then notifyEmptyState
     else sendResultsToUI summary)%script
    (λ error,
       let message :=
         match error with
         | ThrownError message => message
         | ThrownValue _ => "Unexpected error during scan"
         end in
       (notify message 2000 ;;; postMessage (Error message))%script).

(** The [while (current)] loop of [resolvePage]. *)
Fixpoint resolvePage_loop (current : BaseNode) : option BaseNode :=
  if String.eqb (node_type current) "PAGE" then Some current
  else
    match node_parent current with
    | Some (Some parent) => resolvePage_loop parent
    | Some None | None => None
    end.

Definition resolvePage (node : BaseNode) : option BaseNode :=
  match node_parent node with
  | Some (Some current) => resolvePage_loop current
  | Some None | None => None
  end.

Definition focusNode (figma : Figma) (nodeId : string) : Script SummaryData unit :=
  (node <- call (getNodeById figma nodeId) ;;
   match node with
   | None =>
       notify "Target node not found. It may have been deleted." 2000 ;;;
       postMessage (Error "Node not found or removed.")
   | Some node =>
       let page := resolvePage node in
       match page with
       | Some page => set_currentPage page
       | None => script_ret tt
       end ;;;
       scrollAndZoomIntoView [node]
   end)%script.

(** [figma.ui.onmessage] *)
Definition onmessage (figma : Figma) (pluginMessage : PluginMessage)
  : Script SummaryData unit :=
  match pluginMessage with
  | NotObject _ => script_ret tt
  | MessageObject type nodeId =>
      if strict_eq_string type "scan" then handleScanRequest figma
      else if strict_eq_string type "navigate" then
        match nodeId with
        | Some (VString nodeId) => focusNode figma nodeId
        | Some _ | None => script_ret tt
        end
      else script_ret tt
  end.

(** [figma.on('run', ...)] *)
Definition on_run : Script SummaryData unit := postMessage Ready.
End Js.

(** The TypeScript source.  The type guards [node is InstanceNode] are
    boolean functions; [boundVariables] is read through a cast to
    [Record<string, { id?: string } | null>]. *)
Module Ts.

Definition isInstanceNode (node : BaseNode) : bool :=
  String.eqb (node_type node) "INSTANCE".

Definition isDetachedComponent (node : BaseNode) : bool :=
  isInstanceNode node &&
  match mainComponent node with
  | MainNull => true
  | MainUndefined | MainRef _ => false
  end.

Definition extractDetachedVariables (figma : Figma) (node : BaseNode) (page : PageNode)
  : Completion (list DetachedItem) :=
  match boundVariables node with
  | BoundObject boundVars =>
      for_of (Object_keys boundVars) (λ (items : list DetachedItem) propertyName,
        match get_property boundVars propertyName with
        | Some (BindingObject id) =>
            let variableId :=
              match id with
              | VString s => Some s
              | VUndefined | VNull | VBool _ | VNumber _ => None
              end in
            match variableId with
            | Some variableId =>
                if String.eqb variableId EmptyString then Normal items
                else
                  variable ←
                    match variables figma with
                    | Some getVariableById => getVariableById variableId
                    | None => Normal None
                    end;
                  match variable with
                  | None =>
                      Normal (items ++ [
                        {| item_id := node_id node;
                           item_name := str_or (node_name node) (node_type node)
                                        +:+ " · " +:+ propertyName;
                           item_type := type_variable;
                           item_pageId := page_id page;
                           item_pageName := page_name page;
                           item_metadata := Some [("property", propertyName)] |}])
                  | Some _ => Normal items
                  end
            | None => Normal items
            end
        | Some BindingAbsent | None => Normal items
        end) []
  | BoundMissing | BoundFalsy => Normal []
  end.

Definition getDetachedItemsForPage (figma : Figma) (page : PageNode)
  : Completion (list DetachedItem) :=
  nodes ← findAll page (λ _, true);
  for_of nodes (λ (items : list DetachedItem) node,
    let items :=
      if isDetachedComponent node then
        items ++ [{| item_id := node_id node;
                     item_name := str_or (node_name node) "Unnamed Instance";
                     item_type := type_component;
                     item_pageId := page_id page;
                     item_pageName := page_name page;
                     item_metadata := None |}]
      else items in
    variableIssues ← extractDetachedVariables figma node page;
    if 0 <? length variableIssues then Normal (items ++ variableIssues)
    else Normal items) [].

Definition scanFile (figma : Figma) : Completion SummaryData :=
  let pages := root_children figma in
  '(pageBreakdown, totalDetachedComponents, totalDetachedVariables) ←
    for_of pages
      (λ '((pageBreakdown, totalDetachedComponents, totalDetachedVariables) : ScanVars) page,
        pageItems ← getDetachedItemsForPage figma page;
        if 0 <? length pageItems then
          let totalDetachedComponents :=
            totalDetachedComponents +
            length (filter (λ item, DetachedType_eqb (item_type item) type_component = true)
                           pageItems) in
          let totalDetachedVariables :=
            totalDetachedVariables +
            length (filter (λ item, DetachedType_eqb (item_type item) type_variable = true)
                           pageItems) in
          Normal (pageBreakdown ++ [{| pageId := page_id page;
                                       pageName := page_name page;
                                       items := pageItems |}],
                  totalDetachedComponents, totalDetachedVariables)
        else Normal (pageBreakdown, totalDetachedComponents, totalDetachedVariables))
      ([], 0, 0);
  mret {| totalDetachedComponents := totalDetachedComponents;
          totalDetachedVariables := totalDetachedVariables;
          pageBreakdown := pageBreakdown |}.
End Ts.

End Integrity.

(** * Properties *)

(** ** Loops and completions *)

Lemma for_of_app {A S} (body : S → A → Completion S) xs ys s :
  for_of (xs ++ ys) body s = s' ← for_of xs body s; for_of ys body s'.
Proof.
  revert s. induction xs as [|x xs IH]; intros s; simpl; [done|].
  destruct (body s x); simpl; [apply IH|done].
Qed.

Lemma for_of_pure {A S} (body : S → A → Completion S) (step : S → A → S) xs s :
  (∀ s x, body s x = Normal (step s x)) →
  for_of xs body s = Normal (foldl step s xs).
Proof.
  intros Hb. revert s. induction xs as [|x xs IH]; intros s; simpl; [done|].
  by rewrite Hb, IH.
Qed.

Lemma bind_Normal_inv {A B} (m : Completion A) (f : A → Completion B) b :
  m ≫= f = Normal b → ∃ a, m = Normal a ∧ f a = Normal b.
Proof. destruct m as [a|e]; simpl; [eauto|done]. Qed.

(** ** The [Map] model *)

Lemma Map_get_set_eq {V} (m : JsMap V) k v : Map_get (Map_set m k v) k = Some v.
Proof.
  induction m as [|[k' v'] m IH]; simpl.
  - by rewrite String.eqb_refl.
  - destruct (String.eqb k' k) eqn:E; simpl; rewrite E; [done|apply IH].
Qed.

Lemma Map_has_true {V} (m : JsMap V) k : Map_has m k = true → is_Some (Map_get m k).
Proof. unfold Map_has. destruct (Map_get m k); [eauto|done]. Qed.

Lemma Map_get_Some_elem {V} (m : JsMap V) k v : Map_get m k = Some v → (k, v) ∈ m.
Proof.
  induction m as [|[k' v'] m IH]; simpl; [done|].
  destruct (String.eqb k' k) eqn:E.
  - apply String.eqb_eq in E as ->. intros [= ->]. left.
  - intros H. right. by apply IH.
Qed.

Lemma Map_get_None_keys {V} (m : JsMap V) k : Map_get m k = None → k ∉ m.*1.
Proof.
  induction m as [|[k' v'] m IH]; csimpl; [intros _; apply not_elem_of_nil|].
  destruct (String.eqb k' k) eqn:E; [done|].
  intros H. apply not_elem_of_cons. split; [|by apply IH].
  intros ->. by rewrite String.eqb_refl in E.
Qed.

(** Setting a key that is present changes no key. *)
Lemma Map_set_keys_present {V} (m : JsMap V) k v :
  is_Some (Map_get m k) → (Map_set m k v).*1 = m.*1.
Proof.
  induction m as [|[k' v'] m IH]; simpl; [by intros [? ?]|].
  destruct (String.eqb k' k) eqn:E; csimpl; [done|].
  intros H. by rewrite IH.
Qed.

(** Setting a key that is absent appends it. *)
Lemma Map_set_absent {V} (m : JsMap V) k v :
  Map_get m k = None → Map_set m k v = m ++ [(k, v)].
Proof.
  induction m as [|[k' v'] m IH]; simpl; [done|].
  destruct (String.eqb k' k) eqn:E; [done|].
  intros H. by rewrite IH.
Qed.

Lemma Map_set_elem {V} (m : JsMap V) k v k0 v0 :
  (k0, v0) ∈ Map_set m k v → (k0, v0) = (k, v) ∨ (k0, v0) ∈ m.
Proof.
  induction m as [|[k' v'] m IH]; simpl.
  - intros ->%list_elem_of_singleton. by left.
  - destruct (String.eqb k' k) eqn:E.
    + apply String.eqb_eq in E as ->.
      intros [->|H]%elem_of_cons; [by left|right; by right].
    + intros [->|H]%elem_of_cons; [right; left|].
      destruct (IH H) as [?|?]; [by left|right; by right].
Qed.

(** ** The sort model *)

Lemma sort_insert_Permutation {A} (cmp : A → A → Z) x l :
  sort_insert cmp x l ≡ₚ x :: l.
Proof.
  induction l as [|y l IH]; simpl; [done|].
  destruct (cmp x y <=? 0)%Z; [done|].
  rewrite IH. apply Permutation_swap.
Qed.

Lemma Array_sort_Permutation {A} (cmp : A → A → Z) l : Array_sort cmp l ≡ₚ l.
Proof.
  induction l as [|x l IH]; simpl; [done|].
  unfold Array_sort in *. simpl. by rewrite sort_insert_Permutation, IH.
Qed.

Lemma Array_sort_nil_inv {A} (cmp : A → A → Z) l : Array_sort cmp l = [] → l = [].
Proof.
  intros H. apply Permutation_nil_r. rewrite <- H. symmetry. apply Array_sort_Permutation.
Qed.

(** A comparator is consistent when reversing a strictly positive comparison
    gives a non-positive one and [comparefn a b <= 0] is transitive. *)
Record ConsistentComparator {A} (cmp : A → A → Z) : Prop := {
  comparator_reverse : ∀ a b, (0 < cmp a b)%Z → (cmp b a ≤ 0)%Z;
  comparator_trans : ∀ a b c, (cmp a b ≤ 0)%Z → (cmp b c ≤ 0)%Z → (cmp a c ≤ 0)%Z
}.

(** [a] may stand before [b] under the comparator. *)
Definition in_order {A} (cmp : A → A → Z) (a b : A) : Prop := (cmp a b ≤ 0)%Z.

Lemma sort_insert_Sorted {A} (cmp : A → A → Z) x l :
  (∀ a b, (0 < cmp a b)%Z → (cmp b a ≤ 0)%Z) →
  Sorted (in_order cmp) l → Sorted (in_order cmp) (sort_insert cmp x l).
Proof.
  intros Hrev. induction l as [|y l IH]; simpl; intros Hs.
  - repeat constructor.
  - destruct (Z.leb_spec (cmp x y) 0) as [Hle|Hgt].
    + constructor; [done|]. by constructor.
    + apply Sorted_inv in Hs as [Hs Hhd]. constructor; [by apply IH|].
      destruct l as [|z l]; simpl.
      * constructor. by apply Hrev.
      * destruct (Z.leb_spec (cmp x z) 0).
        -- constructor. by apply Hrev.
        -- constructor. by apply HdRel_inv in Hhd.
Qed.

Lemma Array_sort_Sorted {A} (cmp : A → A → Z) l :
  (∀ a b, (0 < cmp a b)%Z → (cmp b a ≤ 0)%Z) →
  Sorted (in_order cmp) (Array_sort cmp l).
Proof.
  intros Hrev. induction l as [|x l IH]; [constructor|].
  unfold Array_sort in *. simpl. by apply sort_insert_Sorted.
Qed.

Lemma Array_sort_StronglySorted {A} (cmp : A → A → Z) l :
  ConsistentComparator cmp → StronglySorted (in_order cmp) (Array_sort cmp l).
Proof.
  intros [Hrev Htrans]. apply Sorted_StronglySorted.
  - intros a b c. apply Htrans.
  - by apply Array_sort_Sorted.
Qed.

Lemma ConsistentComparator_on {A B} (cmp : B → B → Z) (f : A → B) :
  ConsistentComparator cmp → ConsistentComparator (λ a b, cmp (f a) (f b)).
Proof. intros [Hrev Htrans]. split; eauto. Qed.

Lemma foldl_add_sum_list {A} (f : A → nat) (l : list A) (a : nat) :
  foldl (λ acc x, acc + f x) a l = a + sum_list (f <$> l).
Proof.
  revert a. induction l as [|x l IH]; intros a; csimpl; [lia|].
  rewrite IH. lia.
Qed.

Lemma foldl_add_keys {A} (f : A → string) (l : list A) (keys : gset string) :
  foldl (λ keys x, {[ f x ]} ∪ keys) keys l = keys ∪ list_to_set (f <$> l).
Proof.
  revert keys. induction l as [|x l IH]; intros keys; csimpl.
  - set_solver.
  - rewrite IH. set_solver.
Qed.

Lemma Map_set_keys_set {V} (m : JsMap V) k v :
  list_to_set (C := gset string) (Map_set m k v).*1 = list_to_set m.*1 ∪ {[ k ]}.
Proof.
  induction m as [|[k' v'] m IH]; csimpl.
  - set_solver.
  - destruct (String.eqb k' k) eqn:E; csimpl.
    + apply String.eqb_eq in E as ->. set_solver.
    + rewrite IH. set_solver.
Qed.

Lemma Map_set_Forall {V} (P : string * V → Prop) (m : JsMap V) k v :
  Forall P m → P (k, v) → Forall P (Map_set m k v).
Proof.
  intros Hm Hkv. induction Hm as [|[k' v'] m Hx Hm IH]; simpl.
  - by constructor.
  - destruct (String.eqb k' k) eqn:E.
    + apply String.eqb_eq in E as ->. by constructor.
    + by constructor.
Qed.

Lemma Map_get_Forall {V} (P : string * V → Prop) (m : JsMap V) k v :
  Forall P m → Map_get m k = Some v → P (k, v).
Proof.
  intros Hm Hget. rewrite Forall_forall in Hm. apply Hm. by apply Map_get_Some_elem.
Qed.

(** ** The dispatcher's world *)

(** The world after further calls. *)
Definition emit {D} (w : World D) (cs : list (HostCall D)) : World D :=
  {| currentPage := currentPage w; calls := calls w ++ cs |}.

Lemma emit_emit {D} (w : World D) cs1 cs2 : emit (emit w cs1) cs2 = emit w (cs1 ++ cs2).
Proof. unfold emit. simpl. by rewrite app_assoc. Qed.

(** The host with another list of pages. *)
Definition with_pages (figma : Figma) (pages : list PageNode) : Figma :=
  {| root_children := pages;
     variables := variables figma;
     getNodeById := getNodeById figma |}.

(** ** Pipeline 1 *)

(** The nodes a successful traversal of the page yields. *)
Definition page_nodes (page : PageNode) : list BaseNode :=
  match descendants page with
  | Normal nodes => nodes
  | Throw _ => []
  end.

(** The definition a node refers to, when the reference is not absent. *)
Definition definition_of (node : BaseNode) : option ComponentNode :=
  match mainComponent node with
  | MainRef main => Some main
  | MainUndefined | MainNull => None
  end.

(** The definition of a qualifying instance: the node is an INSTANCE and
    its definition reference is not absent. *)
Definition qualifying_definition (node : BaseNode) : option ComponentNode :=
  if String.eqb (node_type node) "INSTANCE" then definition_of node else None.

(** The group key of a definition: its key when non-empty, otherwise its
    node id. *)
Definition group_key (main : ComponentNode) : string :=
  if decide (comp_key main = EmptyString) then comp_id main else comp_key main.

(** The group keys of the qualifying instances of a page, and of the file. *)
Definition page_group_keys (page : PageNode) : list string :=
  group_key <$> omap qualifying_definition (page_nodes page).

Definition file_group_keys (figma : Figma) : list string :=
  page ← root_children figma; page_group_keys page.

Module InstanceUsageProofs.
Import InstanceUsage.

(** The key [scanFile] records for a group. *)
Definition recorded_key (group : ComponentGroup) : string :=
  opt_or (componentKey group) (componentId group).

(** The body of the loop over a page's instances. *)
Definition group_step (groups : JsMap ComponentGroup) (instance : BaseNode)
  : Completion (JsMap ComponentGroup) :=
  match mainComponent instance with
  | MainRef main =>
      let componentId := comp_id main in
      let groupKey := str_or (comp_key main) componentId in
      let groups :=
        if Map_has groups groupKey then groups
        else Map_set groups groupKey
               {| componentId := componentId;
                  componentKey := str_or_undefined (comp_key main);
                  componentName := str_or (comp_name main) "Unnamed Component";
                  instances := [] |} in
      match Map_get groups groupKey with
      | Some group =>
          Normal (Map_set groups groupKey (push_instance group
            {| usage_id := node_id instance;
               usage_name := str_or (node_name instance) "Instance";
               usage_componentId := componentId;
               usage_componentKey := str_or_undefined (comp_key main);
               usage_componentName := str_or (comp_name main) "Unnamed Component" |}))
      | None => Throw (ThrownError "Cannot read properties of undefined (reading 'instances')")
      end
  | MainUndefined | MainNull => Normal groups
  end.

Definition is_instance (node : BaseNode) : Prop :=
  String.eqb (node_type node) "INSTANCE" = true.

Section WithLocale.
Variable localeCompare : string → string → Z.

Definition compare_groups (a b : ComponentGroup) : Z :=
  localeCompare (componentName a) (componentName b).

Definition compare_usages (a b : InstanceUsage) : Z :=
  localeCompare (usage_name a) (usage_name b).

Lemma getInstancesForPage_unfold page :
  Js.getInstancesForPage localeCompare page =
  nodes ← descendants page;
  groups ← for_of (filter is_instance nodes) group_step [];
  mret (sort_instances compare_usages <$> Array_sort compare_groups (Map_values groups)).
Proof. unfold Js.getInstancesForPage, findAll. by destruct (descendants page). Qed.

Lemma str_or_group_key main : str_or (comp_key main) (comp_id main) = group_key main.
Proof.
  unfold str_or, group_key. destruct (String.eqb_spec (comp_key main) EmptyString);
    by case_decide.
Qed.

Lemma opt_or_str_or_undefined a b : opt_or (str_or_undefined a) b = str_or a b.
Proof.
  unfold opt_or, str_or_undefined, str_or.
  destruct (String.eqb a EmptyString) eqn:E; [done|]. by rewrite E.
Qed.

(** Every entry of the map is filed under the key [scanFile] records. *)
Definition keyed (groups : JsMap ComponentGroup) : Prop :=
  Forall (λ kg, recorded_key kg.2 = kg.1) groups.

Lemma group_step_spec groups instance :
  keyed groups →
  ∃ groups', group_step groups instance = Normal groups' ∧ keyed groups' ∧
    list_to_set (C := gset string) groups'.*1 =
    list_to_set groups.*1 ∪
      match mainComponent instance with
      | MainRef main => {[ group_key main ]}
      | MainUndefined | MainNull => ∅
      end.
Proof.
  intros Hk. unfold group_step.
  destruct (mainComponent instance) as [| |main].
  1,2: exists groups; split_and!; [done|done|set_solver].
  cbv zeta. rewrite str_or_group_key.
  set (fresh := {| componentId := comp_id main |}).
  set (groups1 := if Map_has groups (group_key main) then groups
                  else Map_set groups (group_key main) fresh).
  assert (keyed groups1) as Hk1.
  { subst groups1. destruct (Map_has groups (group_key main)); [done|].
    apply Map_set_Forall; [done|]. unfold recorded_key; simpl.
    by rewrite opt_or_str_or_undefined, str_or_group_key. }
  assert (list_to_set (C := gset string) groups1.*1 =
          list_to_set groups.*1 ∪ {[ group_key main ]}) as Hkeys1.
  { subst groups1. destruct (Map_has groups (group_key main)) eqn:Hhas.
    - apply Map_has_true in Hhas as [g Hg].
      apply Map_get_Some_elem in Hg.
      assert (group_key main ∈ groups.*1) by (apply list_elem_of_fmap; by exists (group_key main, g)).
      set_solver.
    - apply Map_set_keys_set. }
  assert (is_Some (Map_get groups1 (group_key main))) as [g Hg].
  { subst groups1. destruct (Map_has groups (group_key main)) eqn:Hhas.
    - by apply Map_has_true.
    - rewrite Map_get_set_eq. eauto. }
  rewrite Hg. eexists; split_and!; [done| |].
  - apply Map_set_Forall; [done|]. apply (Map_get_Forall _ _ _ _ Hk1 Hg).
  - rewrite Map_set_keys_set, Hkeys1. set_solver.
Qed.

Lemma group_loop_spec (instances : list BaseNode) groups :
  keyed groups →
  ∃ groups', for_of instances group_step groups = Normal groups' ∧ keyed groups' ∧
    list_to_set (C := gset string) groups'.*1 =
    list_to_set groups.*1 ∪ list_to_set (group_key <$> omap definition_of instances) ∧
    (omap definition_of instances = [] → groups' = groups).
Proof.
  revert groups. induction instances as [|instance instances IH]; intros groups Hk.
  - exists groups. split_and!; [done|done|set_solver|done].
  - destruct (group_step_spec groups instance Hk) as (groups1 & Hstep & Hk1 & Hkeys1).
    destruct (IH groups1 Hk1) as (groups' & Hloop & Hk' & Hkeys' & Hnone).
    exists groups'. simpl. rewrite Hstep. split_and!; [done|done| |].
    + rewrite Hkeys', Hkeys1. unfold definition_of at 2.
      destruct (mainComponent instance); csimpl; set_solver.
    + unfold definition_of at 1. intros Hq.
      unfold group_step in Hstep.
      destruct (mainComponent instance); [| |done].
      all: injection Hstep as <-; by apply Hnone.
Qed.

Lemma omap_qualifying (nodes : list BaseNode) :
  omap qualifying_definition nodes = omap definition_of (filter is_instance nodes).
Proof.
  induction nodes as [|node nodes IH]; [done|].
  rewrite filter_cons. csimpl. rewrite IH. unfold qualifying_definition at 1.
  case_decide as Hi; unfold is_instance in Hi.
  - by rewrite Hi.
  - by destruct (String.eqb (node_type node) "INSTANCE").
Qed.

Lemma recorded_key_sort_instances cmp group :
  recorded_key (sort_instances cmp group) = recorded_key group.
Proof. done. Qed.

(** What a page's groups are, when its scan completes. *)
Lemma getInstancesForPage_Normal page groups :
  Js.getInstancesForPage localeCompare page = Normal groups →
  ∃ m, descendants page = Normal (page_nodes page) ∧
    for_of (filter is_instance (page_nodes page)) group_step [] = Normal m ∧
    keyed m ∧
    groups = sort_instances compare_usages <$> Array_sort compare_groups (Map_values m).
Proof.
  rewrite getInstancesForPage_unfold. unfold page_nodes.
  destruct (descendants page) as [nodes|e]; simpl; [|done].
  destruct (group_loop_spec (filter is_instance nodes) []) as (m & Hm & Hk & _);
    [constructor|].
  rewrite Hm. simpl. intros [= <-]. by exists m.
Qed.

(** The traversal of a page is the only point where its scan can fault. *)
Lemma getInstancesForPage_total page nodes :
  descendants page = Normal nodes →
  ∃ groups, Js.getInstancesForPage localeCompare page = Normal groups.
Proof.
  intros Hd. rewrite getInstancesForPage_unfold, Hd. simpl.
  destruct (group_loop_spec (filter is_instance nodes) []) as (m & -> & _);
    [constructor|]. simpl. eauto.
Qed.

Lemma getInstancesForPage_Throw page e :
  Js.getInstancesForPage localeCompare page = Throw e ↔ descendants page = Throw e.
Proof.
  rewrite getInstancesForPage_unfold.
  destruct (descendants page) as [nodes|e']; simpl; [|by split; intros [= ->]].
  destruct (group_loop_spec (filter is_instance nodes) []) as (m & -> & _);
    [constructor|]. simpl. split; intros; discriminate.
Qed.

Lemma keyed_recorded_keys m : keyed m → recorded_key <$> Map_values m = m.*1.
Proof.
  unfold Map_values. induction 1 as [|[k g] m Hkg _ IH]; csimpl; [done|].
  simpl in Hkg. by rewrite Hkg, IH.
Qed.

(** The keys recorded for a page's groups are the group keys of its
    qualifying instances. *)
Lemma page_recorded_keys page groups :
  Js.getInstancesForPage localeCompare page = Normal groups →
  list_to_set (C := gset string) (recorded_key <$> groups) =
  list_to_set (page_group_keys page).
Proof.
  intros (m & Hd & Hloop & Hk & ->)%getInstancesForPage_Normal.
  destruct (group_loop_spec (filter is_instance (page_nodes page)) [])
    as (m' & Hm' & _ & Hkeys & _); [constructor|].
  rewrite Hloop in Hm'. injection Hm' as <-.
  unfold page_group_keys. rewrite omap_qualifying.
  rewrite <- list_fmap_compose.
  rewrite (list_fmap_ext (recorded_key ∘ sort_instances compare_usages) recorded_key
             _ (λ _ _ _, eq_refl)).
  rewrite (list_to_set_perm_L _ _ (fmap_Permutation _ _ _ (Array_sort_Permutation _ _))).
  rewrite keyed_recorded_keys by done. rewrite Hkeys. set_solver.
Qed.

(** The entry [scanFile] pushes for a page; none when the page has no
    group. *)
Definition page_data (page : PageNode) : option PageData :=
  match Js.getInstancesForPage localeCompare page with
  | Normal (group :: groups) =>
      Some {| pageId := page_id page;
              pageName := page_name page;
              instanceCount := sum_list (length ∘ instances <$> group :: groups);
              componentGroups := group :: groups |}
  | Normal [] | Throw _ => None
  end.

(** The body of the loop over the pages. *)
Definition scan_step : ScanVars → PageNode → Completion ScanVars :=
  λ '(pageBreakdown, totalInstances, uniqueComponentKeys) page,
    componentGroups ← Js.getInstancesForPage localeCompare page;
    if length componentGroups =? 0 then
      Normal (pageBreakdown, totalInstances, uniqueComponentKeys)
    else
      let instanceCount :=
        foldl (λ acc group, acc + length (instances group)) 0 componentGroups in
      let totalInstances := totalInstances + instanceCount in
      let uniqueComponentKeys :=
        foldl (λ keys group,
                 {[ opt_or (componentKey group) (componentId group) ]} ∪ keys)
              uniqueComponentKeys componentGroups in
      Normal (pageBreakdown ++ [{| pageId := page_id page;
                                   pageName := page_name page;
                                   instanceCount := instanceCount;
                                   componentGroups := componentGroups |}],
              totalInstances, uniqueComponentKeys).

Lemma usage_scanFile_unfold figma :
  Js.scanFile localeCompare figma =
  vars ← for_of (root_children figma) scan_step ([], 0, ∅);
  mret {| totalInstances := vars.1.2;
          totalUniqueComponents := size vars.2;
          pageBreakdown := vars.1.1 |}.
Proof.
  unfold Js.scanFile. fold scan_step.
  by destruct (for_of _ _ _) as [[[? ?] ?]|].
Qed.

Lemma usage_scan_step_spec pb t (ks : gset string) page groups :
  Js.getInstancesForPage localeCompare page = Normal groups →
  scan_step (pb, t, ks) page =
  Normal (pb ++ option_list (page_data page),
          t + sum_list (instanceCount <$> option_list (page_data page)),
          ks ∪ list_to_set (page_group_keys page)).
Proof.
  intros Hg. pose proof (page_recorded_keys _ _ Hg) as Hkeys.
  unfold scan_step, page_data. rewrite Hg. simpl.
  destruct groups as [|group groups]; simpl.
  - f_equal. apply pair_equal_spec; split; [apply pair_equal_spec; split|].
    + by rewrite app_nil_r.
    + simpl. lia.
    + set_solver.
  - rewrite (foldl_add_sum_list (length ∘ instances)).
    rewrite (foldl_add_keys recorded_key). fold (recorded_key group).
    rewrite <- Hkeys. f_equal.
    apply pair_equal_spec; split; [apply pair_equal_spec; split|].
    + reflexivity.
    + simpl. by rewrite Nat.add_0_r.
    + set_solver.
Qed.

Lemma usage_scan_loop_spec pages pb t (ks : gset string) vars :
  for_of pages scan_step (pb, t, ks) = Normal vars →
  vars = (pb ++ omap page_data pages,
          t + sum_list (instanceCount <$> omap page_data pages),
          ks ∪ list_to_set (pages ≫= page_group_keys)).
Proof.
  revert pb t ks. induction pages as [|page pages IH]; intros pb t ks; cbn [for_of].
  - intros [= <-]. csimpl. apply pair_equal_spec; split; [apply pair_equal_spec; split|];
      [by rewrite app_nil_r|lia|set_solver].
  - destruct (Js.getInstancesForPage localeCompare page) as [groups|e] eqn:Hg.
    + rewrite (usage_scan_step_spec _ _ _ _ _ Hg). intros ->%IH.
      apply pair_equal_spec; split; [apply pair_equal_spec; split|].
      * csimpl. destruct (page_data page); csimpl; by rewrite <- ?app_assoc, ?app_nil_r.
      * csimpl. destruct (page_data page); csimpl; lia.
      * rewrite <- (assoc_L (∪)). by rewrite <- list_to_set_app_L.
    + unfold scan_step. by rewrite Hg.
Qed.

Lemma scan_loop_total pages vars :
  Forall (λ page, ∃ nodes, descendants page = Normal nodes) pages →
  ∃ vars', for_of pages scan_step vars = Normal vars'.
Proof.
  intros Hp. revert vars. induction Hp as [|page pages [nodes Hd] _ IH]; intros vars.
  - by eexists.
  - destruct (getInstancesForPage_total page nodes Hd) as [groups Hg].
    destruct vars as [[pb t] ks]. cbn [for_of]. rewrite (usage_scan_step_spec _ _ _ _ _ Hg).
    apply IH.
Qed.

(** The summary [scanFile] returns, when it returns one. *)
Lemma usage_scanFile_Normal figma summary :
  Js.scanFile localeCompare figma = Normal summary →
  summary =
  {| totalInstances := sum_list (instanceCount <$> omap page_data (root_children figma));
     totalUniqueComponents := size (list_to_set (C := gset string) (file_group_keys figma));
     pageBreakdown := omap page_data (root_children figma) |}.
Proof.
  rewrite usage_scanFile_unfold.
  intros (vars & ->%usage_scan_loop_spec & [= <-])%bind_Normal_inv. simpl.
  f_equal. f_equal. unfold file_group_keys. set_solver.
Qed.

(** [scanFile] returns a summary whenever the host's traversals succeed. *)
Lemma scanFile_total figma :
  Forall (λ page, ∃ nodes, descendants page = Normal nodes) (root_children figma) →
  ∃ summary, Js.scanFile localeCompare figma = Normal summary.
Proof.
  intros Hp. rewrite usage_scanFile_unfold.
  destruct (scan_loop_total _ ([], 0, ∅) Hp) as [vars ->]. simpl. eauto.
Qed.

(** The calls a scan request makes. *)
Definition scan_response (figma : Figma) : list (HostCall SummaryData) :=
  match Js.scanFile localeCompare figma with
  | Normal summary =>
      [PostMessage (Results
         (if length (pageBreakdown summary) =? 0 then
            {| totalInstances := 0; totalUniqueComponents := 0; pageBreakdown := [] |}
          else summary))]
  | Throw e =>
      let message :=
        match e with
        | ThrownError message => message
        | ThrownValue _ => "Unexpected error during scan"
        end in
      [Notify message 2000; PostMessage (Error message)]
  end.

Lemma usage_handleScanRequest_spec figma w :
  Js.handleScanRequest localeCompare figma w = Returned tt (emit w (scan_response figma)).
Proof.
  unfold Js.handleScanRequest, scan_response, try_catch, script_bind, call.
  destruct (Js.scanFile localeCompare figma) as [summary|e].
  - by destruct (length (pageBreakdown summary) =? 0).
  - unfold notify, postMessage, record_call, emit. simpl. by rewrite <- app_assoc.
Qed.

Lemma usage_onmessage_scan figma nodeId w :
  Js.onmessage localeCompare figma (MessageObject (VString "scan") nodeId) w =
  Returned tt (emit w (scan_response figma)).
Proof. apply usage_handleScanRequest_spec. Qed.

Lemma page_data_Some page data :
  page_data page = Some data →
  ∃ m, keyed m ∧
    componentGroups data =
      sort_instances compare_usages <$> Array_sort compare_groups (Map_values m) ∧
    instanceCount data = sum_list (length ∘ instances <$> componentGroups data) ∧
    pageId data = page_id page ∧ pageName data = page_name page.
Proof.
  unfold page_data.
  destruct (Js.getInstancesForPage localeCompare page) as [groups|e] eqn:Hg; [|done].
  apply getInstancesForPage_Normal in Hg as (m & _ & _ & Hk & Hgroups).
  destruct groups as [|group groups]; [done|]. intros [= <-]. simpl.
  exists m. by rewrite <- Hgroups.
Qed.

Lemma usage_scan_loop_empty pages pb t (ks : gset string) t' ks' :
  for_of pages scan_step (pb, t, ks) = Normal ([], t', ks') → t' = t ∧ ks' = ks.
Proof.
  revert pb t ks. induction pages as [|page pages IH]; intros pb t ks; cbn [for_of].
  - by intros [= _ -> ->].
  - destruct (Js.getInstancesForPage localeCompare page) as [groups|e] eqn:Hg.
    + destruct groups as [|group groups].
      * unfold scan_step. rewrite Hg. simpl. apply IH.
      * unfold scan_step. rewrite Hg. cbn -[for_of]. intros Hloop.
        apply usage_scan_loop_spec in Hloop. injection Hloop as Hpb _ _.
        symmetry in Hpb. apply app_eq_nil in Hpb as [Hpb _].
        by apply app_eq_nil in Hpb as [_ ?].
    + unfold scan_step. by rewrite Hg.
Qed.

(** A summary without pages is the zero-valued summary. *)
Lemma usage_scanFile_empty figma summary :
  Js.scanFile localeCompare figma = Normal summary →
  pageBreakdown summary = [] →
  summary = {| totalInstances := 0; totalUniqueComponents := 0; pageBreakdown := [] |}.
Proof.
  rewrite usage_scanFile_unfold.
  intros ([[pb t] ks] & Hloop & [= <-])%bind_Normal_inv. simpl. intros ->.
  by apply usage_scan_loop_empty in Hloop as [-> ->].
Qed.

Lemma scan_response_Normal figma summary :
  Js.scanFile localeCompare figma = Normal summary →
  scan_response figma = [PostMessage (Results summary)].
Proof.
  intros Hs. unfold scan_response. rewrite Hs.
  destruct (length (pageBreakdown summary) =? 0) eqn:E; [|done].
  apply Nat.eqb_eq, nil_length_inv in E.
  by rewrite <- (usage_scanFile_empty figma summary).
Qed.

(** C1: pipeline 1's [totalUniqueComponents] is the number of distinct group
    keys (the definition's key when non-empty, otherwise its node id) of the
    qualifying instances of the whole file: the keys are collected in one
    set over all pages, so a definition instantiated on two pages counts
    once. *)
Theorem C1_unique_components_are_distinct_group_keys figma summary :
  Js.scanFile localeCompare figma = Normal summary →
  totalUniqueComponents summary =
  size (list_to_set (C := gset string) (file_group_keys figma)).
Proof. by intros ->%usage_scanFile_Normal. Qed.

(** C2: in pipeline 1's summary, every page's [instanceCount] is the sum of
    [instances.length] over that page's groups, and [totalInstances] is the
    sum of [instanceCount] over the pages of [pageBreakdown]. *)
Theorem C2_instance_counts_sum_over_groups figma summary :
  Js.scanFile localeCompare figma = Normal summary →
  Forall (λ page,
            sum_list (length ∘ instances <$> componentGroups page) = instanceCount page)
         (pageBreakdown summary) ∧
  sum_list (instanceCount <$> pageBreakdown summary) = totalInstances summary.
Proof.
  intros ->%usage_scanFile_Normal. simpl. split; [|done].
  apply Forall_forall. intros data (page & _ & Hdata)%list_elem_of_omap.
  by apply page_data_Some in Hdata as (m & _ & _ & -> & _).
Qed.

(** C5: under a consistent locale comparator, each page's groups are
    sorted by [componentName] and each group's instances by their own name,
    both by [localeCompare]; and a second scan of the same document posts
    the same summary as the first. *)
Theorem C5_groups_and_instances_sorted figma summary :
  ConsistentComparator localeCompare →
  Js.scanFile localeCompare figma = Normal summary →
  Forall (λ page,
            StronglySorted
              (λ a b, (localeCompare (componentName a) (componentName b) ≤ 0)%Z)
              (componentGroups page) ∧
            Forall (λ group,
                      StronglySorted
                        (λ a b, (localeCompare (usage_name a) (usage_name b) ≤ 0)%Z)
                        (instances group))
                   (componentGroups page))
         (pageBreakdown summary) ∧
  ∀ w nodeId nodeId',
    script_bind (Js.onmessage localeCompare figma (MessageObject (VString "scan") nodeId))
      (λ _, Js.onmessage localeCompare figma (MessageObject (VString "scan") nodeId')) w =
    Returned tt (emit w [PostMessage (Results summary); PostMessage (Results summary)]).
Proof.
  intros Hcmp Hscan. split.
  - apply usage_scanFile_Normal in Hscan as ->. simpl.
    apply Forall_forall. intros data (page & _ & Hdata)%list_elem_of_omap.
    apply page_data_Some in Hdata as (m & _ & -> & _). split.
    + apply (StronglySorted_fmap _ (in_order compare_groups)); [done|].
      apply Array_sort_StronglySorted.
      apply (ConsistentComparator_on localeCompare componentName Hcmp).
    + apply Forall_fmap, Forall_forall. intros group _. simpl.
      apply (Array_sort_StronglySorted compare_usages).
      apply (ConsistentComparator_on localeCompare usage_name Hcmp).
  - intros w nodeId nodeId'. unfold script_bind.
    rewrite !usage_onmessage_scan, (scan_response_Normal _ _ Hscan).
    by rewrite emit_emit.
Qed.

(** A page without qualifying instances has no group. *)
Lemma getInstancesForPage_no_definition page nodes :
  descendants page = Normal nodes →
  omap qualifying_definition nodes = [] →
  Js.getInstancesForPage localeCompare page = Normal [].
Proof.
  intros Hd Hq. rewrite getInstancesForPage_unfold, Hd. simpl.
  destruct (group_loop_spec (filter is_instance nodes) [])
    as (m & -> & _ & _ & Hnone); [constructor|].
  rewrite <- omap_qualifying in Hnone. by rewrite (Hnone Hq).
Qed.

(** A page without group leaves every variable of [scanFile]'s loop as it
    is: the scan of the file is the scan of the file without that page. *)
Lemma scanFile_skips_page figma before page after :
  Js.getInstancesForPage localeCompare page = Normal [] →
  Js.scanFile localeCompare (with_pages figma (before ++ page :: after)) =
  Js.scanFile localeCompare (with_pages figma (before ++ after)).
Proof.
  intros Hg. rewrite !usage_scanFile_unfold. simpl. rewrite !for_of_app.
  destruct (for_of before scan_step ([], 0, ∅)) as [[[pb t] ks]|e]; [|done].
  cbn [mbind Completion_bind for_of]. unfold scan_step at 1. by rewrite Hg.
Qed.

(** The dispatcher returns on every message, as long as the host's node
    lookup answers. *)
Lemma usage_onmessage_returns figma pluginMessage w :
  (∀ nodeId, ∃ node, getNodeById figma nodeId = Normal node) →
  ∃ w', Js.onmessage localeCompare figma pluginMessage w = Returned tt w'.
Proof.
  intros Hlookup. destruct pluginMessage as [v|type nodeId]; [by eexists|].
  unfold Js.onmessage.
  destruct (strict_eq_string type "scan"); [rewrite usage_handleScanRequest_spec; eauto|].
  destruct (strict_eq_string type "navigate"); [|by eexists].
  destruct nodeId as [[| | | |nodeId]|]; try by eexists.
  unfold Js.focusNode, script_bind, call. destruct (Hlookup nodeId) as [[node|] ->].
  - destruct (Js.resolvePage node); by eexists.
  - by eexists.
Qed.

End WithLocale.
End InstanceUsageProofs.

(** ** Pipeline 2 *)

Module IntegrityProofs.
Import Integrity.

(** The variable id a property's binding carries: the binding is an object
    whose [id] is a non-empty string. *)
Definition binding_id (binding : option Binding) : option string :=
  match binding with
  | Some (BindingObject (VString id)) =>
      if decide (id = EmptyString) then None else Some id
  | Some (BindingObject (VUndefined | VNull | VBool _ | VNumber _))
  | Some BindingAbsent | None => None
  end.

(** The host's answer for a variable id; without the variables API no id
    resolves. *)
Definition lookup_variable (figma : Figma) (id : string)
  : Completion (option VariableNode) :=
  match variables figma with
  | Some getVariableById => getVariableById id
  | None => Normal None
  end.

(** The id resolves to no live variable. *)
Definition unresolved (figma : Figma) (id : string) : Prop :=
  lookup_variable figma id = Normal None.

(** The property is bound to an id that resolves to no live variable. *)
Definition broken_property (figma : Figma) (boundVars : list (string * Binding))
    (propertyName : string) : bool :=
  match binding_id (get_property boundVars propertyName) with
  | Some id =>
      match lookup_variable figma id with
      | Normal None => true
      | Normal (Some _) | Throw _ => false
      end
  | None => false
  end.

(** The item reported for a broken binding of [propertyName]. *)
Definition variable_item (node : BaseNode) (page : PageNode) (propertyName : string)
  : DetachedItem :=
  {| item_id := node_id node;
     item_name :=
       (if decide (node_name node = EmptyString) then node_type node else node_name node)
       +:+ " · " +:+ propertyName;
     item_type := type_variable;
     item_pageId := page_id page;
     item_pageName := page_name page;
     item_metadata := Some [("property", propertyName)] |}.

(** The item reported for an orphaned instance. *)
Definition component_item (node : BaseNode) (page : PageNode) : DetachedItem :=
  {| item_id := node_id node;
     item_name :=
       if decide (node_name node = EmptyString) then "Unnamed Instance" else node_name node;
     item_type := type_component;
     item_pageId := page_id page;
     item_pageName := page_name page;
     item_metadata := None |}.

(** The variable items of a node, in the order of its bound-property keys. *)
Definition node_variable_items (figma : Figma) (page : PageNode) (node : BaseNode)
  : list DetachedItem :=
  match boundVariables node with
  | BoundObject boundVars =>
      variable_item node page <$>
        filter (λ propertyName, broken_property figma boundVars propertyName = true)
               (Object_keys boundVars)
  | BoundMissing | BoundFalsy => []
  end.

(** The items of a node: its component item, if it is an orphaned
    instance, then its variable items. *)
Definition node_items (figma : Figma) (page : PageNode) (node : BaseNode)
  : list DetachedItem :=
  (if Js.isDetachedComponent node then [component_item node page] else []) ++
  node_variable_items figma page node.

Definition is_component (item : DetachedItem) : Prop :=
  DetachedType_eqb (item_type item) type_component = true.

Definition is_variable (item : DetachedItem) : Prop :=
  DetachedType_eqb (item_type item) type_variable = true.

(** The body of the loop over a node's bound properties. *)
Definition extract_step (figma : Figma) (node : BaseNode) (page : PageNode)
    (boundVars : list (string * Binding))
    (items : list DetachedItem) (propertyName : string) : Completion (list DetachedItem) :=
  match get_property boundVars propertyName with
  | Some (BindingObject id) =>
      let variableId :=
        match id with
        | VString s => Some s
        | VUndefined | VNull | VBool _ | VNumber _ => None
        end in
      match variableId with
      | Some variableId =>
          if String.eqb variableId EmptyString then Normal items
          else
            variable ←
              match variables figma with
              | Some getVariableById => getVariableById variableId
              | None => Normal None
              end;
            match variable with
            | None =>
                Normal (items ++ [
                  {| item_id := node_id node;
                     item_name := str_or (node_name node) (node_type node)
                                  +:+ " · " +:+ propertyName;
                     item_type := type_variable;
                     item_pageId := page_id page;
                     item_pageName := page_name page;
                     item_metadata := Some [("property", propertyName)] |}])
            | Some _ => Normal items
            end
      | None => Normal items
      end
  | Some BindingAbsent | None => Normal items
  end.

Lemma extractDetachedVariables_unfold figma node page :
  Js.extractDetachedVariables figma node page =
  match boundVariables node with
  | BoundObject boundVars =>
      for_of (Object_keys boundVars) (extract_step figma node page boundVars) []
  | BoundMissing | BoundFalsy => Normal []
  end.
Proof. done. Qed.

Lemma str_or_decide a b : str_or a b = if decide (a = EmptyString) then b else a.
Proof. unfold str_or. destruct (String.eqb_spec a EmptyString); by case_decide. Qed.

Lemma extract_step_spec figma node page boundVars items propertyName :
  extract_step figma node page boundVars items propertyName =
  match binding_id (get_property boundVars propertyName) with
  | Some id =>
      variable ← lookup_variable figma id;
      match variable with
      | None => Normal (items ++ [variable_item node page propertyName])
      | Some _ => Normal items
      end
  | None => Normal items
  end.
Proof.
  unfold extract_step, binding_id, variable_item. rewrite str_or_decide.
  destruct (get_property boundVars propertyName) as [[|[| | | |id]]|]; try done.
  destruct (String.eqb_spec id EmptyString) as [->|Hne].
  - by rewrite decide_True.
  - by rewrite (decide_False (P := id = EmptyString)).
Qed.

Lemma extract_step_Normal figma node page boundVars items propertyName result :
  extract_step figma node page boundVars items propertyName = Normal result →
  result = items ++ (if broken_property figma boundVars propertyName
                     then [variable_item node page propertyName] else []).
Proof.
  rewrite extract_step_spec. unfold broken_property.
  destruct (binding_id (get_property boundVars propertyName)) as [id|].
  - destruct (lookup_variable figma id) as [[v|]|e]; simpl; [| |done].
    all: intros [= <-]; by rewrite ?app_nil_r.
  - intros [= <-]. by rewrite app_nil_r.
Qed.

(** A completed loop over the keys reports the broken properties, each once,
    in key order. *)
Lemma extract_loop_Normal figma node page boundVars keys items result :
  for_of keys (extract_step figma node page boundVars) items = Normal result →
  result = items ++ (variable_item node page <$>
             filter (λ propertyName, broken_property figma boundVars propertyName = true) keys).
Proof.
  revert items. induction keys as [|key keys IH]; intros items; cbn [for_of].
  - intros [= <-]. by rewrite app_nil_r.
  - destruct (extract_step figma node page boundVars items key) as [items'|e] eqn:Hstep;
      [|done].
    apply extract_step_Normal in Hstep as ->. intros ->%IH.
    rewrite filter_cons.
    destruct (broken_property figma boundVars key) eqn:Hb.
    + rewrite decide_True by done. csimpl. by rewrite <- app_assoc.
    + rewrite decide_False by done. by rewrite app_nil_r.
Qed.

(** The loop completes when no lookup it makes faults. *)
Lemma extract_loop_total figma node page boundVars keys items :
  Forall (λ propertyName,
            ∀ id, binding_id (get_property boundVars propertyName) = Some id →
                  ∃ variable, lookup_variable figma id = Normal variable) keys →
  ∃ result, for_of keys (extract_step figma node page boundVars) items = Normal result.
Proof.
  intros Hk. revert items. induction Hk as [|key keys Hkey _ IH]; intros items; cbn [for_of].
  - eauto.
  - rewrite extract_step_spec.
    destruct (binding_id (get_property boundVars key)) as [id|]; [|apply IH].
    destruct (Hkey id eq_refl) as [[v|] ->]; simpl; apply IH.
Qed.

Lemma extractDetachedVariables_Normal figma node page items :
  Js.extractDetachedVariables figma node page = Normal items →
  items = node_variable_items figma page node.
Proof.
  rewrite extractDetachedVariables_unfold. unfold node_variable_items.
  destruct (boundVariables node) as [| |boundVars]; [by intros [= <-]..|].
  by intros ->%extract_loop_Normal.
Qed.

(** The body of the loop over a page's nodes. *)
Definition items_step (figma : Figma) (page : PageNode)
    (items : list DetachedItem) (node : BaseNode) : Completion (list DetachedItem) :=
  let items :=
    if Js.isDetachedComponent node then
      items ++ [{| item_id := node_id node;
                   item_name := str_or (node_name node) "Unnamed Instance";
                   item_type := type_component;
                   item_pageId := page_id page;
                   item_pageName := page_name page;
                   item_metadata := None |}]
    else items in
  variableIssues ← Js.extractDetachedVariables figma node page;
  if 0 <? length variableIssues then Normal (items ++ variableIssues)
  else Normal items.

Lemma filter_always {A} (l : list A) : filter (λ _, true = true) l = l.
Proof.
  induction l as [|x l IH]; [done|]. rewrite filter_cons_True by done. by rewrite IH.
Qed.

Lemma getDetachedItemsForPage_unfold figma page :
  Js.getDetachedItemsForPage figma page =
  nodes ← descendants page; for_of nodes (items_step figma page) [].
Proof.
  unfold Js.getDetachedItemsForPage, findAll.
  destruct (descendants page) as [nodes|e]; [|done]. simpl.
  by rewrite filter_always.
Qed.

Lemma items_step_Normal figma page items node result :
  items_step figma page items node = Normal result →
  Js.extractDetachedVariables figma node page = Normal (node_variable_items figma page node) ∧
  result = items ++ node_items figma page node.
Proof.
  unfold items_step, node_items, component_item. rewrite str_or_decide.
  destruct (Js.extractDetachedVariables figma node page) as [issues|e] eqn:He; [|done].
  apply extractDetachedVariables_Normal in He as ->. simpl. intros Hr. split; [done|].
  destruct (node_variable_items figma page node) as [|issue issues]; simpl in Hr.
  - injection Hr as <-. destruct (Js.isDetachedComponent node); by rewrite ?app_nil_r.
  - injection Hr as <-. destruct (Js.isDetachedComponent node); by rewrite <- ?app_assoc.
Qed.

Lemma items_loop_Normal figma page nodes items result :
  for_of nodes (items_step figma page) items = Normal result →
  result = items ++ (nodes ≫= node_items figma page).
Proof.
  revert items. induction nodes as [|node nodes IH]; intros items; cbn [for_of].
  - intros [= <-]. by rewrite app_nil_r.
  - destruct (items_step figma page items node) as [items'|e] eqn:Hstep; [|done].
    apply items_step_Normal in Hstep as [_ ->]. intros ->%IH.
    csimpl. by rewrite <- app_assoc.
Qed.

(** The items of a page, when its scan completes: the items of its nodes,
    node after node in traversal order. *)
Lemma getDetachedItemsForPage_Normal figma page items :
  Js.getDetachedItemsForPage figma page = Normal items →
  descendants page = Normal (page_nodes page) ∧
  items = page_nodes page ≫= node_items figma page.
Proof.
  rewrite getDetachedItemsForPage_unfold. unfold page_nodes.
  destruct (descendants page) as [nodes|e]; [|done]. simpl.
  by intros ->%items_loop_Normal.
Qed.

(** The entry [scanFile] pushes for a page; none when the page has no item. *)
Definition page_data (figma : Figma) (page : PageNode) : option PageData :=
  match Js.getDetachedItemsForPage figma page with
  | Normal (item :: items) =>
      Some {| pageId := page_id page;
              pageName := page_name page;
              items := item :: items |}
  | Normal [] | Throw _ => None
  end.

(** The body of the loop over the pages. *)
Definition scan_step (figma : Figma) : ScanVars → PageNode → Completion ScanVars :=
  λ '(pageBreakdown, totalDetachedComponents, totalDetachedVariables) page,
    pageItems ← Js.getDetachedItemsForPage figma page;
    if 0 <? length pageItems then
      let totalDetachedComponents :=
        totalDetachedComponents +
        length (filter (λ item, DetachedType_eqb (item_type item) type_component = true)
                       pageItems) in
      let totalDetachedVariables :=
        totalDetachedVariables +
        length (filter (λ item, DetachedType_eqb (item_type item) type_variable = true)
                       pageItems) in
      Normal (pageBreakdown ++ [{| pageId := page_id page;
                                   pageName := page_name page;
                                   items := pageItems |}],
              totalDetachedComponents, totalDetachedVariables)
    else Normal (pageBreakdown, totalDetachedComponents, totalDetachedVariables).

Lemma integrity_scanFile_unfold figma :
  Js.scanFile figma =
  vars ← for_of (root_children figma) (scan_step figma) ([], 0, 0);
  mret {| totalDetachedComponents := vars.1.2;
          totalDetachedVariables := vars.2;
          pageBreakdown := vars.1.1 |}.
Proof.
  unfold Js.scanFile. fold (scan_step figma).
  by destruct (for_of _ _ _) as [[[? ?] ?]|].
Qed.

Lemma integrity_scan_step_spec figma pb c v page pageItems :
  Js.getDetachedItemsForPage figma page = Normal pageItems →
  scan_step figma (pb, c, v) page =
  Normal (pb ++ option_list (page_data figma page),
          c + length (filter is_component pageItems),
          v + length (filter is_variable pageItems)).
Proof.
  intros Hg. unfold scan_step, page_data. rewrite Hg. simpl.
  destruct pageItems as [|item pageItems]; simpl; [|done].
  by rewrite app_nil_r, !Nat.add_0_r.
Qed.

Lemma integrity_scan_loop_spec figma pages pb c v vars :
  for_of pages (scan_step figma) (pb, c, v) = Normal vars →
  vars = (pb ++ omap (page_data figma) pages,
          c + length (filter is_component (pages ≫= λ page, page_nodes page ≫= node_items figma page)),
          v + length (filter is_variable (pages ≫= λ page, page_nodes page ≫= node_items figma page))).
Proof.
  revert pb c v. induction pages as [|page pages IH]; intros pb c v; cbn [for_of].
  - intros [= <-]. csimpl. by rewrite app_nil_r, !Nat.add_0_r.
  - destruct (Js.getDetachedItemsForPage figma page) as [pageItems|e] eqn:Hg.
    + rewrite (integrity_scan_step_spec _ _ _ _ _ _ Hg). intros ->%IH.
      apply getDetachedItemsForPage_Normal in Hg as [_ Hitems].
      csimpl. rewrite <- Hitems, !filter_app, !length_app.
      apply pair_equal_spec; split; [apply pair_equal_spec; split|]; [|lia..].
      destruct (page_data figma page); csimpl; by rewrite <- ?app_assoc, ?app_nil_r.
    + unfold scan_step. by rewrite Hg.
Qed.

Lemma scan_loop_pages_Normal figma pages vars vars' :
  for_of pages (scan_step figma) vars = Normal vars' →
  Forall (λ page, ∃ pageItems, Js.getDetachedItemsForPage figma page = Normal pageItems) pages.
Proof.
  revert vars. induction pages as [|page pages IH]; intros [[pb c] v]; cbn [for_of];
    [by constructor|].
  destruct (Js.getDetachedItemsForPage figma page) as [pageItems|e] eqn:Hg.
  - rewrite (integrity_scan_step_spec _ _ _ _ _ _ Hg). intros Hloop. constructor; eauto.
  - unfold scan_step. by rewrite Hg.
Qed.

(** All the items of the file, page after page. *)
Definition file_items (figma : Figma) : list DetachedItem :=
  page ← root_children figma; page_nodes page ≫= node_items figma page.

(** The summary [scanFile] returns, when it returns one. *)
Lemma integrity_scanFile_Normal figma summary :
  Js.scanFile figma = Normal summary →
  summary =
  {| totalDetachedComponents := length (filter is_component (file_items figma));
     totalDetachedVariables := length (filter is_variable (file_items figma));
     pageBreakdown := omap (page_data figma) (root_children figma) |}.
Proof.
  rewrite integrity_scanFile_unfold.
  by intros (vars & ->%integrity_scan_loop_spec & [= <-])%bind_Normal_inv.
Qed.

Lemma scanFile_pages_Normal figma summary :
  Js.scanFile figma = Normal summary →
  Forall (λ page, ∃ pageItems, Js.getDetachedItemsForPage figma page = Normal pageItems)
         (root_children figma).
Proof.
  rewrite integrity_scanFile_unfold.
  intros (vars & Hloop & _)%bind_Normal_inv. by eapply scan_loop_pages_Normal.
Qed.

Lemma integrity_scan_loop_empty figma pages pb c v c' v' :
  for_of pages (scan_step figma) (pb, c, v) = Normal ([], c', v') → c' = c ∧ v' = v.
Proof.
  revert pb c v. induction pages as [|page pages IH]; intros pb c v; cbn [for_of].
  - by intros [= _ -> ->].
  - destruct (Js.getDetachedItemsForPage figma page) as [[|item pageItems]|e] eqn:Hg.
    + unfold scan_step. rewrite Hg. simpl. apply IH.
    + unfold scan_step. rewrite Hg. cbn -[for_of]. intros Hloop.
      apply integrity_scan_loop_spec in Hloop. injection Hloop as Hpb _ _.
      symmetry in Hpb. apply app_eq_nil in Hpb as [Hpb _].
      by apply app_eq_nil in Hpb as [_ ?].
    + unfold scan_step. by rewrite Hg.
Qed.

(** A summary without pages is the zero-valued summary. *)
Lemma integrity_scanFile_empty figma summary :
  Js.scanFile figma = Normal summary →
  pageBreakdown summary = [] →
  summary = {| totalDetachedComponents := 0; totalDetachedVariables := 0;
               pageBreakdown := [] |}.
Proof.
  rewrite integrity_scanFile_unfold.
  intros ([[pb c] v] & Hloop & [= <-])%bind_Normal_inv. simpl. intros ->.
  by apply integrity_scan_loop_empty in Hloop as [-> ->].
Qed.

(** The calls a scan request makes. *)
Definition scan_response (figma : Figma) : list (HostCall SummaryData) :=
  match Js.scanFile figma with
  | Normal summary =>
      [PostMessage (Results
         (if length (pageBreakdown summary) =? 0 then
            {| totalDetachedComponents := 0; totalDetachedVariables := 0;
               pageBreakdown := [] |}
          else summary))]
  | Throw e =>
      let message :=
        match e with
        | ThrownError message => message
        | ThrownValue _ => "Unexpected error during scan"
        end in
      [Notify message 2000; PostMessage (Error message)]
  end.

Lemma integrity_handleScanRequest_spec figma w :
  Js.handleScanRequest figma w = Returned tt (emit w (scan_response figma)).
Proof.
  unfold Js.handleScanRequest, scan_response, try_catch, script_bind, call.
  destruct (Js.scanFile figma) as [summary|e].
  - by destruct (length (pageBreakdown summary) =? 0).
  - unfold notify, postMessage, record_call, emit. simpl. by rewrite <- app_assoc.
Qed.

Lemma integrity_onmessage_scan figma nodeId w :
  Js.onmessage figma (MessageObject (VString "scan") nodeId) w =
  Returned tt (emit w (scan_response figma)).
Proof. apply integrity_handleScanRequest_spec. Qed.

(** The component items of a node list are those of its orphaned instances. *)
Lemma filter_component_node_items figma page (nodes : list BaseNode) :
  filter is_component (nodes ≫= node_items figma page) =
  (λ node, component_item node page) <$>
    filter (λ node, Js.isDetachedComponent node = true) nodes.
Proof.
  induction nodes as [|node nodes IH]; [done|].
  csimpl. rewrite filter_app, IH, filter_cons. unfold node_items at 1.
  rewrite filter_app.
  assert (filter is_component (node_variable_items figma page node) = []) as ->.
  { unfold node_variable_items. destruct (boundVariables node) as [| |boundVars]; [done..|].
    induction (filter _ (Object_keys boundVars)) as [|key keys IHk]; [done|].
    csimpl. by rewrite filter_cons_False by done. }
  rewrite app_nil_r.
  destruct (Js.isDetachedComponent node).
  - rewrite decide_True by done. by rewrite filter_cons_True by done.
  - by rewrite decide_False by done.
Qed.

Lemma isDetachedComponent_spec node :
  Js.isDetachedComponent node = true ↔
  node_type node = "INSTANCE" ∧ mainComponent node = MainNull.
Proof.
  unfold Js.isDetachedComponent, Js.isInstanceNode.
  rewrite andb_true_iff, String.eqb_eq. by destruct (mainComponent node); intuition.
Qed.

Lemma page_data_spec figma page pageItems :
  Js.getDetachedItemsForPage figma page = Normal pageItems →
  page_data figma page =
  match page_nodes page ≫= node_items figma page with
  | [] => None
  | item :: items =>
      Some {| pageId := page_id page; pageName := page_name page; items := item :: items |}
  end.
Proof.
  intros Hg. unfold page_data. rewrite Hg.
  by apply getDetachedItemsForPage_Normal in Hg as [_ <-].
Qed.

(** C6: pipeline 2 does not re-sort.  The items of a page are the items of
    its nodes, node after node in traversal order; the items of one node are
    its component item (when it is an orphaned instance) immediately
    followed by its variable items, in the enumeration order of its
    bound-property keys. *)
Theorem C6_items_in_discovery_order figma summary :
  Js.scanFile figma = Normal summary →
  pageBreakdown summary =
    omap (λ page,
            match page_nodes page ≫= node_items figma page with
            | [] => None
            | item :: items =>
                Some {| pageId := page_id page; pageName := page_name page;
                        items := item :: items |}
            end)
         (root_children figma) ∧
  ∀ page node boundVars,
    boundVariables node = BoundObject boundVars →
    node_items figma page node =
      (if Js.isDetachedComponent node then [component_item node page] else []) ++
      (variable_item node page <$>
         filter (λ propertyName, broken_property figma boundVars propertyName = true)
                (Object_keys boundVars)).
Proof.
  intros Hscan. split.
  - rewrite (integrity_scanFile_Normal _ _ Hscan). simpl.
    apply scanFile_pages_Normal in Hscan.
    induction Hscan as [|page pages [pageItems Hg] _ IH]; [done|].
    csimpl. by rewrite (page_data_spec _ _ _ Hg), IH.
  - intros page node boundVars Hb. unfold node_items, node_variable_items. by rewrite Hb.
Qed.

(** Keys whose bindings carry no usable id are passed over without any
    lookup: the loop completes whatever the host's registry is. *)
Lemma extract_loop_skipped figma node page boundVars keys items :
  Forall (λ key, binding_id (get_property boundVars key) = None) keys →
  for_of keys (extract_step figma node page boundVars) items = Normal items.
Proof.
  induction 1 as [|key keys Hkey _ IH]; cbn [for_of]; [done|].
  by rewrite extract_step_spec, Hkey.
Qed.

(** The items a list of keys contributes. *)
Definition keys_items (figma : Figma) (node : BaseNode) (page : PageNode)
    (boundVars : list (string * Binding)) (keys : list string) : list DetachedItem :=
  variable_item node page <$>
    filter (λ propertyName, broken_property figma boundVars propertyName = true) keys.

(** C4, amended: a property whose binding id is a non-empty string that
    resolves to no live variable contributes exactly one variable item,
    named after the node (its type tag when the name is empty) and the
    property, with the property as metadata; a property whose binding is
    absent, or whose id is not a string or is the empty string, contributes
    nothing; and a node all of whose bindings are of that kind yields no
    item whatever the variable registry would answer, faults included. *)
Theorem C4_broken_binding_reported figma node page boundVars before propertyName after items :
  boundVariables node = BoundObject boundVars →
  Object_keys boundVars = before ++ propertyName :: after →
  Js.extractDetachedVariables figma node page = Normal items →
  (∀ id, get_property boundVars propertyName = Some (BindingObject (VString id)) →
         id ≠ EmptyString → unresolved figma id →
         items = keys_items figma node page boundVars before ++
                 {| item_id := node_id node;
                    item_name :=
                      (if decide (node_name node = EmptyString)
                       then node_type node else node_name node)
                      +:+ " · " +:+ propertyName;
                    item_type := type_variable;
                    item_pageId := page_id page;
                    item_pageName := page_name page;
                    item_metadata := Some [("property", propertyName)] |} ::
                 keys_items figma node page boundVars after) ∧
  (binding_id (get_property boundVars propertyName) = None →
   items = keys_items figma node page boundVars before ++
           keys_items figma node page boundVars after) ∧
  (Forall (λ key, binding_id (get_property boundVars key) = None) (Object_keys boundVars) →
   ∀ registry,
     Js.extractDetachedVariables
       {| root_children := root_children figma;
          variables := registry;
          getNodeById := getNodeById figma |} node page = Normal []).
Proof.
  intros Hb Hkeys Hitems.
  apply extractDetachedVariables_Normal in Hitems as ->.
  unfold node_variable_items, keys_items. rewrite Hb, Hkeys.
  rewrite filter_app, filter_cons, fmap_app. split_and!.
  - intros id Hget Hid Hun.
    assert (broken_property figma boundVars propertyName = true) as Hbroken.
    { unfold broken_property, binding_id. rewrite Hget, decide_False by done.
      unfold unresolved in Hun. by rewrite Hun. }
    by rewrite decide_True by done.
  - intros Hnone.
    assert (broken_property figma boundVars propertyName = false) as Hbroken.
    { unfold broken_property. by rewrite Hnone. }
    rewrite decide_False; [done|]. by rewrite Hbroken.
  - intros Hall registry. rewrite extractDetachedVariables_unfold, Hb, Hkeys.
    by apply extract_loop_skipped.
Qed.

(** The extraction completes when the registry answers every id. *)
Lemma extractDetachedVariables_total figma node page :
  (∀ id, ∃ variable, lookup_variable figma id = Normal variable) →
  Js.extractDetachedVariables figma node page =
  Normal (node_variable_items figma page node).
Proof.
  intros Hreg. rewrite extractDetachedVariables_unfold. unfold node_variable_items.
  destruct (boundVariables node) as [| |boundVars]; [done..|].
  destruct (extract_loop_total figma node page boundVars (Object_keys boundVars) [])
    as [result Hr].
  { apply Forall_forall. intros key _ id _. apply Hreg. }
  rewrite Hr. by apply extract_loop_Normal in Hr as ->.
Qed.

(** The scan of a page completes when its traversal succeeds and the
    registry answers every id. *)
Lemma getDetachedItemsForPage_total figma page nodes :
  descendants page = Normal nodes →
  (∀ id, ∃ variable, lookup_variable figma id = Normal variable) →
  Js.getDetachedItemsForPage figma page = Normal (nodes ≫= node_items figma page).
Proof.
  intros Hd Hreg. rewrite getDetachedItemsForPage_unfold, Hd. simpl.
  assert (∀ items, for_of nodes (items_step figma page) items =
                   Normal (items ++ (nodes ≫= node_items figma page))) as Hloop.
  { clear Hd. induction nodes as [|node nodes IH]; intros items; cbn [for_of].
    - by rewrite app_nil_r.
    - destruct (items_step figma page items node) as [items'|e] eqn:Hstep.
      + apply items_step_Normal in Hstep as [_ ->]. rewrite IH. csimpl.
        by rewrite <- app_assoc.
      + unfold items_step in Hstep.
        rewrite (extractDetachedVariables_total _ _ _ Hreg) in Hstep. simpl in Hstep.
        by destruct (0 <? length (node_variable_items figma page node)). }
  apply Hloop.
Qed.

(** The parent chain of a node: its parent, its parent's parent, ... *)
Fixpoint ancestors (node : BaseNode) : list BaseNode :=
  match node_parent node with
  | Some (Some parent) => parent :: ancestors parent
  | Some None | None => []
  end.

(** The nearest ancestor whose type is PAGE. *)
Definition page_ancestor (node : BaseNode) : option BaseNode :=
  List.find (λ ancestor, String.eqb (node_type ancestor) "PAGE") (ancestors node).

Lemma resolvePage_loop_spec :
  ∀ current,
    Js.resolvePage_loop current =
    List.find (λ ancestor, String.eqb (node_type ancestor) "PAGE")
              (current :: ancestors current).
Proof.
  fix IH 1. intros [id name type parent main bound].
  cbn [Js.resolvePage_loop ancestors List.find node_type node_parent].
  destruct (String.eqb type "PAGE"); [done|].
  destruct parent as [[parent|]|]; [apply IH|done..].
Qed.

Lemma resolvePage_spec node : Js.resolvePage node = page_ancestor node.
Proof.
  unfold Js.resolvePage, page_ancestor. destruct node as [id name type parent main bound].
  cbn [ancestors node_parent].
  destruct parent as [[parent|]|]; [apply resolvePage_loop_spec|done..].
Qed.

Lemma focusNode_spec figma nodeId w :
  Js.focusNode figma nodeId w =
  match getNodeById figma nodeId with
  | Normal None =>
      Returned tt
        (emit w [Notify "Target node not found. It may have been deleted." 2000;
                 PostMessage (Error "Node not found or removed.")])
  | Normal (Some node) =>
      Returned tt
        match page_ancestor node with
        | Some page =>
            {| currentPage := page;
               calls := calls w ++ [SetCurrentPage page; ScrollAndZoomIntoView [node]] |}
        | None => emit w [ScrollAndZoomIntoView [node]]
        end
  | Throw e => Raised e w
  end.
Proof.
  unfold Js.focusNode, script_bind, call.
  destruct (getNodeById figma nodeId) as [[node|]|e]; [| |done].
  - rewrite resolvePage_spec. destruct (page_ancestor node) as [page|].
    + unfold set_currentPage, scrollAndZoomIntoView, record_call. simpl.
      by rewrite <- app_assoc.
    + done.
  - unfold notify, postMessage, record_call, emit. simpl.
    by rewrite <- app_assoc.
Qed.

(** C8: a navigate request whose node id resolves to no live node makes
    exactly two calls, one user notice and one error message, and changes
    neither the current page nor the viewport; when the node resolves, the
    page is activated only when the parent chain has a PAGE ancestor, and the
    node is brought into view in both cases. *)
Theorem C8_navigate_missing_or_found figma nodeId w :
  (getNodeById figma nodeId = Normal None →
   Js.onmessage figma (MessageObject (VString "navigate") (Some (VString nodeId))) w =
   Returned tt
     {| currentPage := currentPage w;
        calls := calls w ++
                 [Notify "Target node not found. It may have been deleted." 2000;
                  PostMessage (Error "Node not found or removed.")] |}) ∧
  (∀ node,
     getNodeById figma nodeId = Normal (Some node) →
     Js.onmessage figma (MessageObject (VString "navigate") (Some (VString nodeId))) w =
     Returned tt
       match page_ancestor node with
       | Some page =>
           {| currentPage := page;
              calls := calls w ++ [SetCurrentPage page; ScrollAndZoomIntoView [node]] |}
       | None =>
           {| currentPage := currentPage w;
              calls := calls w ++ [ScrollAndZoomIntoView [node]] |}
       end).
Proof.
  split.
  - intros Hnone. cbn [Js.onmessage strict_eq_string]. simpl.
    by rewrite focusNode_spec, Hnone.
  - intros node Hsome. cbn [Js.onmessage strict_eq_string]. simpl.
    by rewrite focusNode_spec, Hsome.
Qed.

(** The dispatcher returns on every message, as long as the host's node
    lookup answers. *)
Lemma integrity_onmessage_returns figma pluginMessage w :
  (∀ nodeId, ∃ node, getNodeById figma nodeId = Normal node) →
  ∃ w', Js.onmessage figma pluginMessage w = Returned tt w'.
Proof.
  intros Hlookup. destruct pluginMessage as [v|type nodeId]; [by eexists|].
  unfold Js.onmessage.
  destruct (strict_eq_string type "scan"); [rewrite integrity_handleScanRequest_spec; eauto|].
  destruct (strict_eq_string type "navigate"); [|by eexists].
  destruct nodeId as [[| | | |nodeId]|]; try by eexists.
  rewrite focusNode_spec. destruct (Hlookup nodeId) as [[node|] ->]; eauto.
Qed.

End IntegrityProofs.

(** ** Both pipelines *)

Lemma filter_ext_Forall {A} (P Q : A → Prop) `{∀ x, Decision (P x)} `{∀ x, Decision (Q x)}
    (l : list A) :
  Forall (λ x, P x ↔ Q x) l → filter P l = filter Q l.
Proof.
  induction 1 as [|x l Hx _ IH]; [done|].
  rewrite !filter_cons, IH. destruct (decide (P x)), (decide (Q x)); tauto.
Qed.

(** Pipeline 2's scan of a list of pages completes when the scan of each
    page does. *)
Lemma integrity_scanFile_total figma pages :
  Forall (λ page, ∃ pageItems,
            Integrity.Js.getDetachedItemsForPage figma page = Normal pageItems) pages →
  ∃ summary, Integrity.Js.scanFile (with_pages figma pages) = Normal summary.
Proof.
  intros Hp. rewrite IntegrityProofs.integrity_scanFile_unfold. simpl.
  change (IntegrityProofs.scan_step (with_pages figma pages))
    with (IntegrityProofs.scan_step figma).
  generalize (([], 0, 0) : Integrity.ScanVars).
  induction Hp as [|page pages [pageItems Hg] _ IH]; intros [[pb c] v]; cbn [for_of].
  - simpl. eauto.
  - rewrite (IntegrityProofs.integrity_scan_step_spec _ _ _ _ _ _ Hg). apply IH.
Qed.

(** The text of a failure: the message of an [Error], a fixed text for any
    other thrown value. *)
Definition failure_message (e : Thrown) : string :=
  match e with
  | ThrownError message => message
  | ThrownValue _ => "Unexpected error during scan"
  end.

Section Claims.
Variable localeCompare : string → string → Z.

(** C3: on a page that has instance nodes, all with a null definition
    reference, pipeline 1 pushes no entry (the scan of the file is the scan
    of the file without the page), and pipeline 2 pushes an entry for the
    page whose component items are one per instance, in traversal order.  A
    node is an orphaned instance exactly when its type is INSTANCE and its
    [mainComponent] is null; an unset reference does not qualify. *)
Theorem C3_orphaned_instances_page figma before page after nodes :
  descendants page = Normal nodes →
  (∃ node, node ∈ nodes ∧ node_type node = "INSTANCE") →
  (∀ node, node ∈ nodes → node_type node = "INSTANCE" → mainComponent node = MainNull) →
  InstanceUsage.Js.scanFile localeCompare (with_pages figma (before ++ page :: after)) =
  InstanceUsage.Js.scanFile localeCompare (with_pages figma (before ++ after)) ∧
  (∀ summary,
     Integrity.Js.scanFile (with_pages figma (before ++ page :: after)) = Normal summary →
     ∃ summary1 summary2 items,
       Integrity.Js.scanFile (with_pages figma before) = Normal summary1 ∧
       Integrity.Js.scanFile (with_pages figma after) = Normal summary2 ∧
       Integrity.pageBreakdown summary =
         Integrity.pageBreakdown summary1 ++
         {| Integrity.pageId := page_id page;
            Integrity.pageName := page_name page;
            Integrity.items := items |} :: Integrity.pageBreakdown summary2 ∧
       filter IntegrityProofs.is_component items =
         (λ node, IntegrityProofs.component_item node page) <$>
           filter (λ node, node_type node = "INSTANCE") nodes) ∧
  (∀ node,
     Integrity.Js.isDetachedComponent node = true ↔
     node_type node = "INSTANCE" ∧ mainComponent node = MainNull) ∧
  (∀ node,
     mainComponent node = MainUndefined → Integrity.Js.isDetachedComponent node = false).
Proof.
  intros Hd [instance [Hin Hinstance]] Hnull. split_and!.
  - apply InstanceUsageProofs.scanFile_skips_page.
    apply (InstanceUsageProofs.getInstancesForPage_no_definition _ _ nodes Hd).
    clear instance Hin Hinstance Hd.
    induction nodes as [|node nodes IH]; [done|].
    csimpl. rewrite IH by (intros; apply Hnull; [by right|done]).
    unfold qualifying_definition, definition_of.
    destruct (String.eqb_spec (node_type node) "INSTANCE") as [Ht|]; [|done].
    by rewrite (Hnull node (list_elem_of_here _ _) Ht).
  - intros summary Hscan.
    pose proof (IntegrityProofs.scanFile_pages_Normal _ _ Hscan) as Hpages.
    change (Forall (λ page, ∃ pageItems,
                      Integrity.Js.getDetachedItemsForPage figma page = Normal pageItems)
                   (before ++ page :: after)) in Hpages.
    apply Forall_app in Hpages as [Hbefore Hpages].
    apply Forall_cons in Hpages as [[pageItems Hg] Hafter].
    destruct (integrity_scanFile_total figma before Hbefore) as [summary1 H1].
    destruct (integrity_scanFile_total figma after Hafter) as [summary2 H2].
    exists summary1, summary2, pageItems. split_and!; [done|done| |].
    + rewrite (IntegrityProofs.integrity_scanFile_Normal _ _ Hscan),
        (IntegrityProofs.integrity_scanFile_Normal _ _ H1),
        (IntegrityProofs.integrity_scanFile_Normal _ _ H2). simpl.
      rewrite omap_app. csimpl. f_equal.
      change (IntegrityProofs.page_data (with_pages figma (before ++ page :: after)) page)
        with (IntegrityProofs.page_data figma page).
      unfold IntegrityProofs.page_data at 1. rewrite Hg.
      destruct pageItems as [|item pageItems]; [|done]. exfalso.
      apply IntegrityProofs.getDetachedItemsForPage_Normal in Hg as [_ Hitems].
      unfold page_nodes in Hitems. rewrite Hd in Hitems.
      assert (IntegrityProofs.component_item instance page ∈
              nodes ≫= IntegrityProofs.node_items figma page) as Helem.
      { apply list_elem_of_bind. exists instance. split; [|done].
        unfold IntegrityProofs.node_items.
        assert (Integrity.Js.isDetachedComponent instance = true) as ->.
        { apply IntegrityProofs.isDetachedComponent_spec. eauto. }
        apply elem_of_app. left. apply list_elem_of_here. }
      rewrite <- Hitems in Helem. by apply not_elem_of_nil in Helem.
    + apply IntegrityProofs.getDetachedItemsForPage_Normal in Hg as [_ ->].
      unfold page_nodes. rewrite Hd.
      rewrite IntegrityProofs.filter_component_node_items. f_equal.
      apply filter_ext_Forall, Forall_forall. intros node Hnode.
      rewrite IntegrityProofs.isDetachedComponent_spec. naive_solver.
  - apply IntegrityProofs.isDetachedComponent_spec.
  - intros node Hu. unfold Integrity.Js.isDetachedComponent. rewrite Hu.
    apply andb_false_r.
Qed.

(** C7: when the document has no page, and whenever a scan returns a
    summary with an empty [pageBreakdown], the scan request posts exactly
    one message, a results message carrying the zero-valued summary; no
    notice and no error message. *)
Theorem C7_empty_scan_posts_zero_summary figma nodeId :
  (∀ w,
     root_children figma = [] ∨
     (∃ summary, InstanceUsage.Js.scanFile localeCompare figma = Normal summary ∧
                 InstanceUsage.pageBreakdown summary = []) →
     InstanceUsage.Js.onmessage localeCompare figma (MessageObject (VString "scan") nodeId) w =
     Returned tt
       {| currentPage := currentPage w;
          calls := calls w ++
            [PostMessage (Results {| InstanceUsage.totalInstances := 0;
                                     InstanceUsage.totalUniqueComponents := 0;
                                     InstanceUsage.pageBreakdown := [] |})] |}) ∧
  (∀ w,
     root_children figma = [] ∨
     (∃ summary, Integrity.Js.scanFile figma = Normal summary ∧
                 Integrity.pageBreakdown summary = []) →
     Integrity.Js.onmessage figma (MessageObject (VString "scan") nodeId) w =
     Returned tt
       {| currentPage := currentPage w;
          calls := calls w ++
            [PostMessage (Results {| Integrity.totalDetachedComponents := 0;
                                     Integrity.totalDetachedVariables := 0;
                                     Integrity.pageBreakdown := [] |})] |}).
Proof.
  split; intros w Hempty.
  - rewrite InstanceUsageProofs.usage_onmessage_scan.
    unfold InstanceUsageProofs.scan_response.
    destruct Hempty as [Hpages|(summary & -> & ->)]; [|done].
    unfold InstanceUsage.Js.scanFile. by rewrite Hpages.
  - rewrite IntegrityProofs.integrity_onmessage_scan.
    unfold IntegrityProofs.scan_response.
    destruct Hempty as [Hpages|(summary & -> & ->)]; [|done].
    unfold Integrity.Js.scanFile. by rewrite Hpages.
Qed.

(** C9: when [scanFile] throws during a scan request, the request returns
    normally after exactly two calls: a user notice carrying the failure's
    message and an error message carrying the same text (the fixed text
    'Unexpected error during scan' when the thrown value is not an Error).
    A scan request returns normally in every world, whatever [scanFile]
    does, and every later message is processed to its end as long as the
    host's node lookup answers. *)
Theorem C9_scan_failure_is_reported figma nodeId e :
  (∀ w,
     InstanceUsage.Js.scanFile localeCompare figma = Throw e →
     InstanceUsage.Js.onmessage localeCompare figma (MessageObject (VString "scan") nodeId) w =
     Returned tt
       {| currentPage := currentPage w;
          calls := calls w ++ [Notify (failure_message e) 2000;
                               PostMessage (Error (failure_message e))] |}) ∧
  (∀ w,
     Integrity.Js.scanFile figma = Throw e →
     Integrity.Js.onmessage figma (MessageObject (VString "scan") nodeId) w =
     Returned tt
       {| currentPage := currentPage w;
          calls := calls w ++ [Notify (failure_message e) 2000;
                               PostMessage (Error (failure_message e))] |}) ∧
  (∀ w nodeId',
     ∃ w', InstanceUsage.Js.onmessage localeCompare figma
             (MessageObject (VString "scan") nodeId') w = Returned tt w') ∧
  (∀ w nodeId',
     ∃ w', Integrity.Js.onmessage figma (MessageObject (VString "scan") nodeId') w =
           Returned tt w') ∧
  ((∀ nodeId, ∃ node, getNodeById figma nodeId = Normal node) →
   ∀ next,
     (∀ w, ∃ w', InstanceUsage.Js.onmessage localeCompare figma next w = Returned tt w') ∧
     (∀ w, ∃ w', Integrity.Js.onmessage figma next w = Returned tt w')).
Proof.
  split_and!.
  - intros w Hthrow. rewrite InstanceUsageProofs.usage_onmessage_scan.
    unfold InstanceUsageProofs.scan_response. by rewrite Hthrow.
  - intros w Hthrow. rewrite IntegrityProofs.integrity_onmessage_scan.
    unfold IntegrityProofs.scan_response. by rewrite Hthrow.
  - intros w nodeId'. rewrite InstanceUsageProofs.usage_onmessage_scan. eauto.
  - intros w nodeId'. rewrite IntegrityProofs.integrity_onmessage_scan. eauto.
  - intros Hlookup next. split; intros w.
    + by apply InstanceUsageProofs.usage_onmessage_returns.
    + by apply IntegrityProofs.integrity_onmessage_returns.
Qed.

(** C10: for each pipeline the compiled script and the TypeScript source
    scan alike: their [scanFile] return the same completion on every
    document, and so do the functions [scanFile] calls. *)
Theorem C10_compiled_script_matches_source :
  (∀ figma,
     InstanceUsage.Js.scanFile localeCompare figma =
     InstanceUsage.Ts.scanFile localeCompare figma) ∧
  (∀ figma, Integrity.Js.scanFile figma = Integrity.Ts.scanFile figma) ∧
  (∀ page,
     InstanceUsage.Js.getInstancesForPage localeCompare page =
     InstanceUsage.Ts.getInstancesForPage localeCompare page) ∧
  (∀ figma page,
     Integrity.Js.getDetachedItemsForPage figma page =
     Integrity.Ts.getDetachedItemsForPage figma page).
Proof. by split_and!. Qed.

End Claims.

(** ** Worked documents *)

(** A comparator for the worked documents: code point order of the
    lower-cased names, so that "Button" and "button" compare equal. *)
Definition lower_ascii (c : Ascii.ascii) : Ascii.ascii :=
  let n := Ascii.nat_of_ascii c in
  if (65 <=? n) && (n <=? 90) then Ascii.ascii_of_nat (n + 32) else c.

Fixpoint lowercase (s : string) : string :=
  match s with
  | EmptyString => EmptyString
  | String c s' => String (lower_ascii c) (lowercase s')
  end.

Definition codepointCompare (a b : string) : Z :=
  match String_as_OT.compare a b with
  | Lt => (-1)%Z
  | Eq => 0%Z
  | Gt => 1%Z
  end.

Definition caseInsensitiveCompare (a b : string) : Z :=
  codepointCompare (lowercase a) (lowercase b).

Lemma codepointCompare_consistent : ConsistentComparator codepointCompare.
Proof.
  assert (∀ a b, (codepointCompare a b ≤ 0)%Z ↔ a = b ∨ String_as_OT.lt a b) as Hle.
  { intros a b. unfold codepointCompare.
    destruct (String_as_OT.compare_spec a b) as [Heq|Hlt|Hgt].
    - split; [by left|lia].
    - split; [by right|lia].
    - split; [lia|]. intros [->|Hlt].
      + by apply (irreflexivity String_as_OT.lt) in Hgt.
      + destruct (irreflexivity String_as_OT.lt a). by etrans. }
  split.
  - intros a b Hpos. apply Hle. unfold codepointCompare in Hpos.
    destruct (String_as_OT.compare_spec a b); [lia..|by right].
  - intros a b c [->|Hab]%Hle [->|Hbc]%Hle; apply Hle; eauto.
    right. by etrans.
Qed.

Lemma caseInsensitiveCompare_consistent : ConsistentComparator caseInsensitiveCompare.
Proof. apply (ConsistentComparator_on codepointCompare lowercase), codepointCompare_consistent. Qed.

Definition scene_node (id name type : string) (main : MainComponentRef)
    (bound : BoundVariables) : BaseNode :=
  {| node_id := id; node_name := name; node_type := type; node_parent := Some None;
     mainComponent := main; boundVariables := bound |}.

(** A page whose traversal faults. *)
Definition faulty : PageNode :=
  {| page_id := "0:4"; page_name := "Faulty";
     descendants := Throw (ThrownError "Page could not be loaded") |}.

(** A document with these pages, no variables API and no node to look up. *)
Definition document (pages : list PageNode) : Figma :=
  {| root_children := pages;
     variables := None;
     getNodeById := λ _, Normal None |}.

Module UsageExamples.
Import InstanceUsage InstanceUsageProofs.

Definition logo_set : ComponentNode :=
  {| comp_id := "1:10"; comp_key := "K1"; comp_name := "Logo Set" |}.

Definition header : ComponentNode :=
  {| comp_id := "1:20"; comp_key := "K2"; comp_name := "Header" |}.

(** Page "Cover": two instances of K1, one of K2, and an orphaned one. *)
Definition cover : PageNode :=
  {| page_id := "0:1"; page_name := "Cover";
     descendants := Normal
       [scene_node "2:1" "Logo" "INSTANCE" (MainRef logo_set) BoundMissing;
        scene_node "2:2" "Title" "TEXT" MainUndefined BoundMissing;
        scene_node "2:3" "logo-small" "INSTANCE" (MainRef logo_set) BoundMissing;
        scene_node "2:4" "Header" "INSTANCE" (MainRef header) BoundMissing;
        scene_node "2:5" "Lost" "INSTANCE" MainNull BoundMissing] |}.

(** Page "Details": one more instance of K1. *)
Definition details : PageNode :=
  {| page_id := "0:2"; page_name := "Details";
     descendants := Normal
       [scene_node "3:1" "Logo" "INSTANCE" (MainRef logo_set) BoundMissing] |}.

(** Page "Orphans": its only instances have a null definition. *)
Definition orphans : PageNode :=
  {| page_id := "0:3"; page_name := "Orphans";
     descendants := Normal
       [scene_node "4:1" "Frame" "FRAME" MainUndefined BoundMissing;
        scene_node "4:2" "Old button" "INSTANCE" MainNull BoundMissing;
        scene_node "4:3" "" "INSTANCE" MainNull BoundMissing] |}.

Definition two_pages : Figma := document [cover; details].

Definition two_pages_summary : SummaryData :=
  Eval vm_compute in
    match Js.scanFile caseInsensitiveCompare two_pages with
    | Normal summary => summary
    | Throw _ =>
        {| totalInstances := 0; totalUniqueComponents := 0; pageBreakdown := [] |}
    end.

Definition start : World SummaryData :=
  {| currentPage := scene_node "0:1" "Cover" "PAGE" MainUndefined BoundMissing;
     calls := [] |}.

Example two_pages_scan :
  Js.scanFile caseInsensitiveCompare two_pages = Normal two_pages_summary.
Proof. vm_compute. reflexivity. Qed.

(** K1 is instantiated on both pages and counted once; the group named
    "Header" comes before the group named "Logo Set". *)
Example two_pages_totals :
  totalInstances two_pages_summary = 4 ∧
  totalUniqueComponents two_pages_summary = 2 ∧
  (λ page, componentName <$> componentGroups page) <$> pageBreakdown two_pages_summary =
    [["Header"; "Logo Set"]; ["Logo Set"]] ∧
  instanceCount <$> pageBreakdown two_pages_summary = [3; 1].
Proof. vm_compute. done. Qed.

Lemma C1_witness :
  Js.scanFile caseInsensitiveCompare two_pages = Normal two_pages_summary ∧
  totalUniqueComponents two_pages_summary =
  size (list_to_set (C := gset string) (file_group_keys two_pages)).
Proof.
  split; [vm_compute; reflexivity|].
  apply (C1_unique_components_are_distinct_group_keys caseInsensitiveCompare two_pages).
  vm_compute. reflexivity.
Defined.

Lemma C2_witness :
  Forall (λ page,
            sum_list (length ∘ instances <$> componentGroups page) = instanceCount page)
         (pageBreakdown two_pages_summary) ∧
  sum_list (instanceCount <$> pageBreakdown two_pages_summary) =
  totalInstances two_pages_summary.
Proof.
  apply (C2_instance_counts_sum_over_groups caseInsensitiveCompare two_pages).
  vm_compute. reflexivity.
Defined.

Lemma C5_witness :
  Forall (λ page,
            StronglySorted
              (λ a b, (caseInsensitiveCompare (componentName a) (componentName b) ≤ 0)%Z)
              (componentGroups page) ∧
            Forall (λ group,
                      StronglySorted
                        (λ a b, (caseInsensitiveCompare (usage_name a) (usage_name b) ≤ 0)%Z)
                        (instances group))
                   (componentGroups page))
         (pageBreakdown two_pages_summary) ∧
  ∀ w nodeId nodeId',
    script_bind
      (Js.onmessage caseInsensitiveCompare two_pages (MessageObject (VString "scan") nodeId))
      (λ _, Js.onmessage caseInsensitiveCompare two_pages
              (MessageObject (VString "scan") nodeId')) w =
    Returned tt (emit w [PostMessage (Results two_pages_summary);
                         PostMessage (Results two_pages_summary)]).
Proof.
  apply (C5_groups_and_instances_sorted caseInsensitiveCompare two_pages).
  - apply caseInsensitiveCompare_consistent.
  - vm_compute. reflexivity.
Defined.

End UsageExamples.

Module IntegrityExamples.
Import Integrity IntegrityProofs.

(** A registry in which only "VariableID:1:2" is live. *)
Definition registry : string → Completion (option VariableNode) :=
  λ id, if String.eqb id "VariableID:1:2"
        then Normal (Some {| variable_id := id |}) else Normal None.

(** A frame with one broken binding, one live binding, a null binding, a
    binding whose id is not a string, and a binding whose id is empty. *)
Definition frame : BaseNode :=
  scene_node "5:1" "Frame" "FRAME" MainUndefined
    (BoundObject [("fill", BindingObject (VString "VariableID:1:1"));
                  ("width", BindingObject (VString "VariableID:1:2"));
                  ("opacity", BindingAbsent);
                  ("stroke", BindingObject (VNumber 42));
                  ("radius", BindingObject (VString EmptyString));
                  ("gap", BindingObject (VString "VariableID:9:9"))]).

(** An orphaned instance without a name, with a broken binding. *)
Definition orphan : BaseNode :=
  scene_node "5:2" "" "INSTANCE" MainNull
    (BoundObject [("fill", BindingObject (VString "VariableID:1:1"))]).

(** An instance whose definition reference is unset. *)
Definition unset_instance : BaseNode :=
  scene_node "5:3" "Ghost" "INSTANCE" MainUndefined BoundFalsy.

Definition frames : PageNode :=
  {| page_id := "0:5"; page_name := "Frames";
     descendants := Normal [frame; orphan; unset_instance] |}.

Definition file : Figma :=
  {| root_children := [frames];
     variables := Some registry;
     getNodeById := λ _, Normal None |}.

Definition file_summary : SummaryData :=
  Eval vm_compute in
    match Js.scanFile file with
    | Normal summary => summary
    | Throw _ =>
        {| totalDetachedComponents := 0; totalDetachedVariables := 0; pageBreakdown := [] |}
    end.

Example file_scan : Js.scanFile file = Normal file_summary.
Proof. vm_compute. reflexivity. Qed.

Example file_items_in_order :
  (λ page, (λ item, (item_name item, item_type item)) <$> items page)
    <$> pageBreakdown file_summary =
  [[("Frame · fill", type_variable);
    ("Frame · gap", type_variable);
    ("Unnamed Instance", type_component);
    ("INSTANCE · fill", type_variable)]] ∧
  totalDetachedComponents file_summary = 1 ∧
  totalDetachedVariables file_summary = 3.
Proof. vm_compute. done. Qed.

Lemma C6_witness :
  pageBreakdown file_summary =
    omap (λ page,
            match page_nodes page ≫= node_items file page with
            | [] => None
            | item :: items =>
                Some {| pageId := page_id page; pageName := page_name page;
                        items := item :: items |}
            end)
         (root_children file) ∧
  ∀ page node boundVars,
    boundVariables node = BoundObject boundVars →
    node_items file page node =
      (if Js.isDetachedComponent node then [component_item node page] else []) ++
      (variable_item node page <$>
         filter (λ propertyName, broken_property file boundVars propertyName = true)
                (Object_keys boundVars)).
Proof.
  apply (C6_items_in_discovery_order file file_summary).
  vm_compute. reflexivity.
Defined.

(** A node named "Frame" with a single, unresolvable binding on "fill". *)
Definition fill_frame : BaseNode :=
  scene_node "6:1" "Frame" "FRAME" MainUndefined
    (BoundObject [("fill", BindingObject (VString "VariableID:1:1"))]).

Lemma C4_witness :
  Js.extractDetachedVariables file fill_frame frames =
    Normal [variable_item fill_frame frames "fill"] ∧
  [variable_item fill_frame frames "fill"] =
    [{| item_id := "6:1";
        item_name := "Frame · fill";
        item_type := type_variable;
        item_pageId := "0:5";
        item_pageName := "Frames";
        item_metadata := Some [("property", "fill")] |}] ∧
  node_variable_items file frames frame =
    [variable_item frame frames "fill"; variable_item frame frames "gap"].
Proof.
  split_and!.
  - vm_compute. reflexivity.
  - apply (proj1 (C4_broken_binding_reported file fill_frame frames
                    [("fill", BindingObject (VString "VariableID:1:1"))] [] "fill" []
                    [variable_item fill_frame frames "fill"]
                    eq_refl eq_refl eq_refl)
                 "VariableID:1:1" eq_refl).
    + done.
    + reflexivity.
  - apply (proj1 (proj2 (C4_broken_binding_reported file frame frames
                    [("fill", BindingObject (VString "VariableID:1:1"));
                     ("width", BindingObject (VString "VariableID:1:2"));
                     ("opacity", BindingAbsent);
                     ("stroke", BindingObject (VNumber 42));
                     ("radius", BindingObject (VString EmptyString));
                     ("gap", BindingObject (VString "VariableID:9:9"))]
                    ["fill"; "width"; "opacity"; "stroke"] "radius" ["gap"]
                    (node_variable_items file frames frame)
                    eq_refl eq_refl eq_refl))).
    reflexivity.
Defined.

(** As first stated, C4 takes every binding id that is a string: it fails
    on the empty string, which is a string and resolves to no live
    variable, and for which no item is emitted. *)
Lemma C4_counterexample_empty_id :
  ¬ (∀ figma node page boundVars propertyName id,
       boundVariables node = BoundObject boundVars →
       Object_keys boundVars = [propertyName] →
       get_property boundVars propertyName = Some (BindingObject (VString id)) →
       unresolved figma id →
       Js.extractDetachedVariables figma node page =
       Normal [variable_item node page propertyName]).
Proof.
  intros Hclaim.
  specialize (Hclaim file
                (scene_node "7:1" "Frame" "FRAME" MainUndefined
                   (BoundObject [("fill", BindingObject (VString EmptyString))]))
                frames [("fill", BindingObject (VString EmptyString))] "fill" EmptyString
                eq_refl eq_refl eq_refl eq_refl).
  vm_compute in Hclaim. discriminate Hclaim.
Qed.

(** A node inside a frame of page "Cover", and a node whose parent chain
    reaches no page. *)
Definition root : BaseNode :=
  {| node_id := "0:0"; node_name := "Document"; node_type := "DOCUMENT";
     node_parent := Some None; mainComponent := MainUndefined;
     boundVariables := BoundMissing |}.

Definition cover_page : BaseNode :=
  {| node_id := "0:1"; node_name := "Cover"; node_type := "PAGE";
     node_parent := Some (Some root); mainComponent := MainUndefined;
     boundVariables := BoundMissing |}.

Definition details_page : BaseNode :=
  {| node_id := "0:2"; node_name := "Details"; node_type := "PAGE";
     node_parent := Some (Some root); mainComponent := MainUndefined;
     boundVariables := BoundMissing |}.

Definition card : BaseNode :=
  {| node_id := "8:1"; node_name := "Card"; node_type := "FRAME";
     node_parent := Some (Some cover_page); mainComponent := MainUndefined;
     boundVariables := BoundMissing |}.

Definition button : BaseNode :=
  {| node_id := "8:2"; node_name := "Button"; node_type := "INSTANCE";
     node_parent := Some (Some card); mainComponent := MainNull;
     boundVariables := BoundMissing |}.

Definition stray : BaseNode :=
  {| node_id := "8:3"; node_name := "Stray"; node_type := "RECTANGLE";
     node_parent := Some None; mainComponent := MainUndefined;
     boundVariables := BoundMissing |}.

Definition live_file : Figma :=
  {| root_children := [frames];
     variables := Some registry;
     getNodeById := λ id, if String.eqb id "8:2" then Normal (Some button)
                          else if String.eqb id "8:3" then Normal (Some stray)
                          else Normal None |}.

Definition start : World SummaryData :=
  {| currentPage := details_page; calls := [] |}.

Lemma C8_witness :
  Js.onmessage live_file (MessageObject (VString "navigate") (Some (VString "9:9"))) start =
    Returned tt
      {| currentPage := details_page;
         calls := [Notify "Target node not found. It may have been deleted." 2000;
                   PostMessage (Error "Node not found or removed.")] |} ∧
  Js.onmessage live_file (MessageObject (VString "navigate") (Some (VString "8:2"))) start =
    Returned tt
      {| currentPage := cover_page;
         calls := [SetCurrentPage cover_page; ScrollAndZoomIntoView [button]] |} ∧
  Js.onmessage live_file (MessageObject (VString "navigate") (Some (VString "8:3"))) start =
    Returned tt
      {| currentPage := details_page;
         calls := [ScrollAndZoomIntoView [stray]] |}.
Proof.
  split_and!.
  - apply (proj1 (C8_navigate_missing_or_found live_file "9:9" start)). reflexivity.
  - apply (proj2 (C8_navigate_missing_or_found live_file "8:2" start) button). reflexivity.
  - apply (proj2 (C8_navigate_missing_or_found live_file "8:3" start) stray). reflexivity.
Defined.

End IntegrityExamples.

Module Examples.
Import UsageExamples.

(** "Orphans" between "Cover" and "Details": pipeline 1 scans the file as
    if the page were not there. *)
Lemma C3_witness :
  InstanceUsage.Js.scanFile caseInsensitiveCompare (document [cover; orphans; details]) =
  InstanceUsage.Js.scanFile caseInsensitiveCompare (document [cover; details]) ∧
  (∀ summary,
     Integrity.Js.scanFile (document [cover; orphans; details]) = Normal summary →
     ∃ summary1 summary2 items,
       Integrity.Js.scanFile (document [cover]) = Normal summary1 ∧
       Integrity.Js.scanFile (document [details]) = Normal summary2 ∧
       Integrity.pageBreakdown summary =
         Integrity.pageBreakdown summary1 ++
         {| Integrity.pageId := "0:3";
            Integrity.pageName := "Orphans";
            Integrity.items := items |} :: Integrity.pageBreakdown summary2 ∧
       filter IntegrityProofs.is_component items =
         [IntegrityProofs.component_item
            (scene_node "4:2" "Old button" "INSTANCE" MainNull BoundMissing) orphans;
          IntegrityProofs.component_item
            (scene_node "4:3" "" "INSTANCE" MainNull BoundMissing) orphans]).
Proof.
  assert (∃ node,
            node ∈ [scene_node "4:1" "Frame" "FRAME" MainUndefined BoundMissing;
                    scene_node "4:2" "Old button" "INSTANCE" MainNull BoundMissing;
                    scene_node "4:3" "" "INSTANCE" MainNull BoundMissing] ∧
            node_type node = "INSTANCE") as Hsome.
  { eexists. split; [apply list_elem_of_further, list_elem_of_here|reflexivity]. }
  assert (∀ node,
            node ∈ [scene_node "4:1" "Frame" "FRAME" MainUndefined BoundMissing;
                    scene_node "4:2" "Old button" "INSTANCE" MainNull BoundMissing;
                    scene_node "4:3" "" "INSTANCE" MainNull BoundMissing] →
            node_type node = "INSTANCE" → mainComponent node = MainNull) as Hall.
  { intros node Hin Htype.
    repeat (apply elem_of_cons in Hin as [->|Hin]); try done.
    by apply not_elem_of_nil in Hin. }
  destruct (C3_orphaned_instances_page caseInsensitiveCompare (document [])
              [cover] orphans [details] _ eq_refl Hsome Hall) as (Husage & Hintegrity & _).
  split; [exact Husage|exact Hintegrity].
Defined.

Lemma C7_witness :
  InstanceUsage.Js.onmessage caseInsensitiveCompare (document [])
    (MessageObject (VString "scan") None) start =
  Returned tt
    {| currentPage := currentPage start;
       calls := [PostMessage (Results {| InstanceUsage.totalInstances := 0;
                                         InstanceUsage.totalUniqueComponents := 0;
                                         InstanceUsage.pageBreakdown := [] |})] |} ∧
  Integrity.Js.onmessage (document []) (MessageObject (VString "scan") None)
    IntegrityExamples.start =
  Returned tt
    {| currentPage := currentPage IntegrityExamples.start;
       calls := [PostMessage (Results {| Integrity.totalDetachedComponents := 0;
                                         Integrity.totalDetachedVariables := 0;
                                         Integrity.pageBreakdown := [] |})] |}.
Proof.
  split.
  - apply (proj1 (C7_empty_scan_posts_zero_summary caseInsensitiveCompare (document []) None)
                 start).
    left. reflexivity.
  - apply (proj2 (C7_empty_scan_posts_zero_summary caseInsensitiveCompare (document []) None)
                 IntegrityExamples.start).
    left. reflexivity.
Defined.

Lemma C9_witness :
  InstanceUsage.Js.onmessage caseInsensitiveCompare (document [cover; faulty])
    (MessageObject (VString "scan") None) start =
  Returned tt
    {| currentPage := currentPage start;
       calls := [Notify "Page could not be loaded" 2000;
                 PostMessage (Error "Page could not be loaded")] |} ∧
  Integrity.Js.onmessage (document [cover; faulty]) (MessageObject (VString "scan") None)
    IntegrityExamples.start =
  Returned tt
    {| currentPage := currentPage IntegrityExamples.start;
       calls := [Notify "Page could not be loaded" 2000;
                 PostMessage (Error "Page could not be loaded")] |}.
Proof.
  split.
  - apply (proj1 (C9_scan_failure_is_reported caseInsensitiveCompare
                    (document [cover; faulty]) None
                    (ThrownError "Page could not be loaded")) start).
    vm_compute. reflexivity.
  - apply (proj1 (proj2 (C9_scan_failure_is_reported caseInsensitiveCompare
                    (document [cover; faulty]) None
                    (ThrownError "Page could not be loaded"))) IntegrityExamples.start).
    vm_compute. reflexivity.
Defined.

(** A thrown value that is not an Error is reported with the fixed text. *)
Example scan_failure_fixed_text :
  Integrity.Js.onmessage
    (document [{| page_id := "0:6"; page_name := "Odd";
                  descendants := Throw (ThrownValue "timeout") |}])
    (MessageObject (VString "scan") None) IntegrityExamples.start =
  Returned tt
    {| currentPage := currentPage IntegrityExamples.start;
       calls := [Notify "Unexpected error during scan" 2000;
                 PostMessage (Error "Unexpected error during scan")] |}.
Proof. reflexivity. Qed.

End Examples.

(** * Further properties of the scripts *)

(** ** More on the [Map] model *)

Lemma Map_get_set {V} (m : JsMap V) k v k' :
  Map_get (Map_set m k v) k' = if String.eqb k k' then Some v else Map_get m k'.
Proof.
  induction m as [|[k0 v0] m IH]; simpl.
  - by destruct (String.eqb k k').
  - destruct (String.eqb_spec k0 k) as [->|Hne]; simpl.
    + by destruct (String.eqb k k').
    + rewrite IH. destruct (String.eqb_spec k0 k') as [->|Hne']; [|done].
      destruct (String.eqb_spec k k') as [->|]; [done|done].
Qed.

Lemma Map_set_keys_NoDup {V} (m : JsMap V) k v : NoDup m.*1 → NoDup (Map_set m k v).*1.
Proof.
  intros Hnd. destruct (Map_get m k) as [g|] eqn:Hget.
  - by rewrite Map_set_keys_present by eauto.
  - rewrite (Map_set_absent _ _ _ Hget), fmap_app. simpl.
    apply NoDup_app. split_and!; [done| |apply NoDup_singleton].
    intros k' Hin ->%list_elem_of_singleton. by apply Map_get_None_keys in Hget.
Qed.

Lemma Map_get_elem_NoDup {V} (m : JsMap V) k v :
  NoDup m.*1 → (k, v) ∈ m → Map_get m k = Some v.
Proof.
  induction m as [|[k0 v0] m IH]; csimpl; [by intros _ ?%not_elem_of_nil|].
  intros [Hk0 Hnd]%NoDup_cons [[= -> ->]|Hin]%elem_of_cons.
  - by rewrite String.eqb_refl.
  - destruct (String.eqb_spec k0 k) as [->|]; [|by apply IH].
    destruct Hk0. apply list_elem_of_fmap. by exists (k, v).
Qed.

Lemma Map_get_Some_key {V} (m : JsMap V) k v : Map_get m k = Some v → k ∈ m.*1.
Proof.
  intros Hin%Map_get_Some_elem. apply list_elem_of_fmap. by exists (k, v).
Qed.

Lemma Map_set_values_sum {V} (f : V → nat) (m : JsMap V) k v g :
  Map_get m k = Some g →
  sum_list (f <$> (Map_set m k v).*2) + f g = sum_list (f <$> m.*2) + f v.
Proof.
  induction m as [|[k0 v0] m IH]; [done|]. simpl.
  destruct (String.eqb k0 k); csimpl.
  - intros [= ->]. lia.
  - intros Hget. specialize (IH Hget). lia.
Qed.

(** ** Pipeline 1: what the groups of a page hold *)

Module InstanceUsageFacts.
Import InstanceUsage InstanceUsageProofs.

(** The record pushed for an instance of [main]. *)
Definition usage_of (p : BaseNode * ComponentNode) : InstanceUsage :=
  {| usage_id := node_id p.1;
     usage_name := str_or (node_name p.1) "Instance";
     usage_componentId := comp_id p.2;
     usage_componentKey := str_or_undefined (comp_key p.2);
     usage_componentName := str_or (comp_name p.2) "Unnamed Component" |}.

(** A node with its definition, when it has one. *)
Definition with_definition (node : BaseNode) : option (BaseNode * ComponentNode) :=
  pair node <$> definition_of node.

(** The qualifying instances of a node list, each with its definition, in
    traversal order. *)
Definition qualifying_instances (nodes : list BaseNode)
  : list (BaseNode * ComponentNode) :=
  omap with_definition (filter is_instance nodes).

(** The instances filed under [key]. *)
Definition members (key : string) (ps : list (BaseNode * ComponentNode))
  : list (BaseNode * ComponentNode) :=
  filter (λ p, group_key p.2 = key) ps.

(** A group holds the instances [first :: rest]: its header comes from the
    definition of [first] and its members are their records, in order. *)
Definition group_of (group : ComponentGroup) (first : BaseNode * ComponentNode)
    (rest : list (BaseNode * ComponentNode)) : Prop :=
  componentId group = comp_id first.2 ∧
  componentKey group = str_or_undefined (comp_key first.2) ∧
  componentName group = str_or (comp_name first.2) "Unnamed Component" ∧
  instances group = usage_of <$> first :: rest.

(** The state of the [groups] map after the instances [ps]. *)
Record grouped (m : JsMap ComponentGroup) (ps : list (BaseNode * ComponentNode)) : Prop := {
  grouped_NoDup : NoDup m.*1;
  grouped_Some : ∀ k g, Map_get m k = Some g →
                   ∃ first rest, members k ps = first :: rest ∧ group_of g first rest;
  grouped_None : ∀ k, Map_get m k = None → members k ps = [];
  grouped_count : sum_list (length ∘ instances <$> m.*2) = length ps
}.

Lemma grouped_nil : grouped [] [].
Proof. split; [constructor|done..]. Qed.

Lemma members_snoc key ps p :
  members key (ps ++ [p]) =
  members key ps ++ (if decide (group_key p.2 = key) then [p] else []).
Proof. unfold members. by rewrite filter_app, filter_cons, filter_nil. Qed.

Lemma group_step_grouped m ps instance :
  grouped m ps →
  ∃ m', group_step m instance = Normal m' ∧
        grouped m' (ps ++ option_list (with_definition instance)).
Proof.
  intros [Hnd Hsome Hnone Hcount]. unfold group_step, with_definition, definition_of.
  destruct (mainComponent instance) as [| |main]; csimpl.
  1,2: exists m; by rewrite app_nil_r.
  rewrite str_or_group_key. set (key := group_key main).
  set (fresh := {| componentId := comp_id main;
                   componentKey := str_or_undefined (comp_key main);
                   componentName := str_or (comp_name main) "Unnamed Component";
                   instances := [] |}).
  set (usage := {| usage_id := node_id instance |}).
  assert (usage = usage_of (instance, main)) as Husage by done. clearbody usage.
  set (m1 := if Map_has m key then m else Map_set m key fresh).
  assert (∃ g1, Map_get m1 key = Some g1 ∧ NoDup m1.*1 ∧
                (∀ k, k ≠ key → Map_get m1 k = Map_get m k) ∧
                sum_list (length ∘ instances <$> m1.*2) = length ps ∧
                match members key ps with
                | [] => g1 = fresh
                | first :: rest => group_of g1 first rest
                end) as (g1 & Hg1 & Hnd1 & Hother & Hcount1 & Hmem).
  { subst m1. unfold Map_has. destruct (Map_get m key) as [g|] eqn:Hget.
    - exists g. split_and!; [done..|].
      destruct (Hsome _ _ Hget) as (first & rest & -> & Hgroup). done.
    - exists fresh. split_and!.
      + apply Map_get_set_eq.
      + by apply Map_set_keys_NoDup.
      + intros k Hk. rewrite Map_get_set.
        destruct (String.eqb_spec key k); [by subst|done].
      + rewrite (Map_set_absent _ _ _ Hget), fmap_app, fmap_app, sum_list_with_app.
        simpl. rewrite <- Hcount. lia.
      + by rewrite (Hnone _ Hget). }
  rewrite Hg1. eexists. split; [done|]. split.
  - by apply Map_set_keys_NoDup.
  - intros k g. rewrite Map_get_set, members_snoc. simpl. fold key.
    destruct (String.eqb_spec key k) as [<-|Hne].
    + intros [= <-]. rewrite decide_True by done.
      destruct (members key ps) as [|first rest].
      * subst g1. exists (instance, main), []. split; [done|].
        by rewrite Husage.
      * destruct Hmem as (Hid & Hkey & Hname & Hinst).
        exists first, (rest ++ [(instance, main)]). split; [done|].
        split_and!; [done..|]. simpl. rewrite Hinst, Husage.
        by rewrite fmap_app.
    + rewrite Hother by done. intros Hget. rewrite decide_False by done.
      rewrite app_nil_r. by apply Hsome.
  - intros k. rewrite Map_get_set, members_snoc. simpl. fold key.
    destruct (String.eqb_spec key k) as [<-|Hne]; [done|].
    rewrite Hother by done. intros Hget. rewrite decide_False by done.
    rewrite app_nil_r. by apply Hnone.
  - rewrite length_app. simpl.
    pose proof (Map_set_values_sum (length ∘ instances) m1 key (push_instance g1 usage) g1 Hg1)
      as Hsum.
    simpl in Hsum. rewrite length_app in Hsum. simpl in Hsum. lia.
Qed.

Lemma group_loop_grouped (instances : list BaseNode) m ps :
  grouped m ps →
  ∃ m', for_of instances group_step m = Normal m' ∧
        grouped m' (ps ++ omap with_definition instances).
Proof.
  revert m ps. induction instances as [|instance instances IH]; intros m ps Hg; csimpl.
  - exists m. by rewrite app_nil_r.
  - destruct (group_step_grouped m ps instance Hg) as (m1 & -> & Hg1).
    destruct (IH _ _ Hg1) as (m' & Hloop & Hg').
    exists m'. split; [done|].
    destruct (with_definition instance); csimpl in *; by rewrite <- ?app_assoc, ?app_nil_r in Hg'.
Qed.

Section WithLocale.
Variable localeCompare : string → string → Z.

Lemma qualifying_instances_keys nodes :
  (λ p, group_key p.2) <$> qualifying_instances nodes =
  group_key <$> omap qualifying_definition nodes.
Proof.
  unfold qualifying_instances. rewrite omap_qualifying.
  induction (filter is_instance nodes) as [|node l IH]; [done|].
  csimpl. unfold with_definition at 1. destruct (definition_of node); csimpl; by rewrite ?IH.
Qed.

(** The map behind the groups of a page. *)
Lemma page_groups_grouped page groups :
  Js.getInstancesForPage localeCompare page = Normal groups →
  ∃ m, grouped m (qualifying_instances (page_nodes page)) ∧
       groups = sort_instances (compare_usages localeCompare) <$>
                  Array_sort (compare_groups localeCompare) (Map_values m).
Proof.
  intros (m & _ & Hloop & _ & ->)%getInstancesForPage_Normal.
  destruct (group_loop_grouped (filter is_instance (page_nodes page)) [] [] grouped_nil)
    as (m' & Hloop' & Hg).
  rewrite Hloop in Hloop'. injection Hloop' as <-. by exists m.
Qed.

Lemma group_of_recorded_key group first rest :
  group_of group first rest → recorded_key group = group_key first.2.
Proof.
  intros (Hid & Hkey & _). unfold recorded_key.
  by rewrite Hid, Hkey, opt_or_str_or_undefined, str_or_group_key.
Qed.

Lemma members_head key ps first rest :
  members key ps = first :: rest → first ∈ ps ∧ group_key first.2 = key.
Proof.
  intros Hm. assert (first ∈ members key ps) as Hin by (rewrite Hm; left).
  by apply list_elem_of_filter in Hin as [? ?].
Qed.

(** What a group of a page is made of. *)
Lemma page_group_spec page groups group :
  Js.getInstancesForPage localeCompare page = Normal groups →
  group ∈ groups →
  ∃ first rest,
    members (recorded_key group) (qualifying_instances (page_nodes page)) = first :: rest ∧
    componentId group = comp_id first.2 ∧
    componentKey group = str_or_undefined (comp_key first.2) ∧
    componentName group = str_or (comp_name first.2) "Unnamed Component" ∧
    instances group =
      Array_sort (compare_usages localeCompare) (usage_of <$> first :: rest).
Proof.
  intros (m & [Hnd Hsome _ _] & ->)%page_groups_grouped.
  intros (g0 & -> & Hg0)%list_elem_of_fmap.
  rewrite (Array_sort_Permutation (compare_groups localeCompare)) in Hg0.
  apply list_elem_of_fmap in Hg0 as ([k g] & -> & Hin). simpl.
  apply (Map_get_elem_NoDup _ _ _ Hnd) in Hin.
  destruct (Hsome _ _ Hin) as (first & rest & Hmem & Hgroup).
  pose proof (group_of_recorded_key _ _ _ Hgroup) as Hkey.
  destruct (members_head _ _ _ _ Hmem) as [_ Hk].
  change (recorded_key (sort_instances (compare_usages localeCompare) g))
    with (recorded_key g).
  rewrite Hkey, Hk. destruct Hgroup as (Hid & Hck & Hname & Hinst).
  exists first, rest. split_and!; [done..|]. simpl. by rewrite Hinst.
Qed.

Lemma page_groups_keys page groups :
  Js.getInstancesForPage localeCompare page = Normal groups →
  NoDup (recorded_key <$> groups) ∧
  ∀ p, p ∈ qualifying_instances (page_nodes page) →
       ∃ group, group ∈ groups ∧ recorded_key group = group_key p.2.
Proof.
  intros (m & [Hnd Hsome Hnone _] & ->)%page_groups_grouped.
  assert (recorded_key <$> Map_values m = m.*1) as Hkeys.
  { unfold Map_values. apply list_eq_Forall2, Forall2_fmap_l, Forall2_fmap_l, Forall2_fmap_r.
    apply Forall_Forall2_diag, Forall_forall. intros [k g] Hin. simpl.
    apply (Map_get_elem_NoDup _ _ _ Hnd) in Hin.
    destruct (Hsome _ _ Hin) as (first & rest & Hmem & Hgroup).
    rewrite (group_of_recorded_key _ _ _ Hgroup).
    by destruct (members_head _ _ _ _ Hmem). }
  assert (recorded_key <$> (sort_instances (compare_usages localeCompare) <$>
            Array_sort (compare_groups localeCompare) (Map_values m)) ≡ₚ m.*1) as Hperm.
  { rewrite <- list_fmap_compose.
    rewrite (list_fmap_ext (recorded_key ∘ sort_instances (compare_usages localeCompare))
               recorded_key _ (λ _ _ _, eq_refl)).
    by rewrite Array_sort_Permutation, Hkeys. }
  split.
  - by rewrite Hperm.
  - intros p Hp.
    destruct (Map_get m (group_key p.2)) as [g|] eqn:Hget.
    + apply Map_get_Some_key in Hget. rewrite <- Hperm in Hget.
      apply list_elem_of_fmap in Hget as (group & Hk & Hin). eauto.
    + apply Hnone in Hget.
      assert (p ∈ members (group_key p.2) (qualifying_instances (page_nodes page))) as Hin
        by (by apply list_elem_of_filter).
      rewrite Hget in Hin. by apply not_elem_of_nil in Hin.
Qed.

Lemma page_groups_count page groups :
  Js.getInstancesForPage localeCompare page = Normal groups →
  sum_list (length ∘ instances <$> groups) = length (page_group_keys page).
Proof.
  intros (m & [_ _ _ Hcount] & ->)%page_groups_grouped.
  unfold page_group_keys. rewrite <- qualifying_instances_keys, length_fmap, <- Hcount.
  rewrite <- list_fmap_compose.
  rewrite (list_fmap_ext (length ∘ instances ∘ sort_instances (compare_usages localeCompare))
             (length ∘ instances) _
             (λ _ g _, Permutation_length (Array_sort_Permutation _ (instances g)))).
  by rewrite (Array_sort_Permutation (compare_groups localeCompare)).
Qed.

End WithLocale.
End InstanceUsageFacts.

(** ** Pipeline 1: properties of the summary *)

Module InstanceUsageExtras.
Import InstanceUsage InstanceUsageProofs InstanceUsageFacts.

Lemma size_list_to_set_le (l : list string) :
  size (list_to_set (C := gset string) l) ≤ length l.
Proof.
  induction l as [|x l IH]; [done|]. rewrite list_to_set_cons. simpl.
  destruct (decide (x ∈ (list_to_set l : gset string))) as [Hin|Hout].
  - replace ({[x]} ∪ list_to_set l) with (list_to_set l : gset string) by set_solver. lia.
  - rewrite size_union by set_solver. rewrite size_singleton. lia.
Qed.

Lemma omap_cons_app {A B} (f : A → option B) x l :
  omap f (x :: l) = option_list (f x) ++ omap f l.
Proof. csimpl. by destruct (f x). Qed.

Lemma str_or_nonempty a b : b ≠ EmptyString → str_or a b ≠ EmptyString.
Proof. unfold str_or. by destruct (String.eqb_spec a EmptyString). Qed.

Section WithLocale.
Variable localeCompare : string → string → Z.

(** The entry of a page whose scan completes. *)
Lemma page_data_cases page groups :
  Js.getInstancesForPage localeCompare page = Normal groups →
  (page_group_keys page = [] ∧ page_data localeCompare page = None) ∨
  (page_group_keys page ≠ [] ∧ groups ≠ [] ∧
   page_data localeCompare page =
     Some {| pageId := page_id page;
             pageName := page_name page;
             instanceCount := length (page_group_keys page);
             componentGroups := groups |}).
Proof.
  intros Hg. pose proof (page_groups_count localeCompare _ _ Hg) as Hcount.
  unfold page_data. rewrite Hg. destruct groups as [|group groups].
  - left. split; [|done]. by apply nil_length_inv.
  - right. rewrite Hcount. split_and!; [|done..].
    destruct (page_group_spec localeCompare _ _ group Hg) as (first & rest & _ & _ & _ & _ & Hi);
      [left|].
    intros Hnil. rewrite Hnil in Hcount. csimpl in Hcount.
    apply (f_equal length) in Hi.
    rewrite (Permutation_length (Array_sort_Permutation _ _)) in Hi. simpl in Hi.
    unfold compose in Hcount at 1. lia.
Qed.

Lemma scan_loop_traversals pages vars vars' :
  for_of pages (scan_step localeCompare) vars = Normal vars' →
  Forall (λ page, ∃ groups, Js.getInstancesForPage localeCompare page = Normal groups) pages.
Proof.
  revert vars. induction pages as [|page pages IH]; intros [[pb t] ks]; cbn [for_of];
    [by constructor|].
  destruct (Js.getInstancesForPage localeCompare page) as [groups|e] eqn:Hg.
  - rewrite (usage_scan_step_spec _ _ _ _ _ _ Hg). intros Hloop. constructor; eauto.
  - unfold scan_step. by rewrite Hg.
Qed.

Lemma scanFile_traversals figma summary :
  Js.scanFile localeCompare figma = Normal summary →
  Forall (λ page, ∃ groups, Js.getInstancesForPage localeCompare page = Normal groups)
         (root_children figma).
Proof.
  rewrite usage_scanFile_unfold.
  intros (vars & Hloop & _)%bind_Normal_inv. by eapply scan_loop_traversals.
Qed.

(** X1. Membership: a group of a page holds exactly the page's qualifying
    instances whose definition has the group's key; their records, taken
    in traversal order, are sorted by name. *)
Theorem group_members_are_instances_of_key page groups group :
  Js.getInstancesForPage localeCompare page = Normal groups →
  group ∈ groups →
  instances group =
  Array_sort (λ a b, localeCompare (usage_name a) (usage_name b))
    (usage_of <$> members (recorded_key group) (qualifying_instances (page_nodes page))).
Proof.
  intros Hg Hin.
  destruct (page_group_spec localeCompare _ _ _ Hg Hin) as (first & rest & -> & _ & _ & _ & ->).
  done.
Qed.

(** X2. Keys: on a page no two groups have the same key, and every qualifying
    instance finds the group of its definition's key. *)
Theorem page_groups_have_distinct_keys page groups :
  Js.getInstancesForPage localeCompare page = Normal groups →
  NoDup ((λ group, opt_or (componentKey group) (componentId group)) <$> groups) ∧
  ∀ p, p ∈ qualifying_instances (page_nodes page) →
       ∃ group, group ∈ groups ∧
                opt_or (componentKey group) (componentId group) = group_key p.2.
Proof. apply page_groups_keys. Qed.

(** X3. Header: the id, key and name of a group are those of the definition of
    the first instance, in traversal order, that is filed under the group's
    key; an empty key is left out and an empty name becomes
    "Unnamed Component". *)
Theorem group_header_from_first_instance page groups group :
  Js.getInstancesForPage localeCompare page = Normal groups →
  group ∈ groups →
  ∃ first,
    head (members (recorded_key group) (qualifying_instances (page_nodes page))) =
      Some first ∧
    componentId group = comp_id first.2 ∧
    componentKey group =
      (if decide (comp_key first.2 = EmptyString) then None else Some (comp_key first.2)) ∧
    componentName group =
      (if decide (comp_name first.2 = EmptyString) then "Unnamed Component"
       else comp_name first.2).
Proof.
  intros Hg Hin.
  destruct (page_group_spec localeCompare _ _ _ Hg Hin)
    as (first & rest & Hmem & Hid & Hkey & Hname & _).
  exists first. rewrite Hmem, Hid, Hkey, Hname. split_and!; [done..| |].
  - unfold str_or_undefined.
    destruct (String.eqb_spec (comp_key first.2) EmptyString); by case_decide.
  - unfold str_or.
    destruct (String.eqb_spec (comp_name first.2) EmptyString); by case_decide.
Qed.

(** X4. Nothing empty is emitted: every page of [pageBreakdown] has at least
    one group, every group at least one instance, and [instanceCount] is
    positive. *)
Theorem emitted_pages_and_groups_are_not_empty figma summary :
  Js.scanFile localeCompare figma = Normal summary →
  Forall (λ page,
            componentGroups page ≠ [] ∧
            Forall (λ group, instances group ≠ []) (componentGroups page) ∧
            0 < instanceCount page)
         (pageBreakdown summary).
Proof.
  intros Hscan. pose proof (scanFile_traversals _ _ Hscan) as Hpages.
  rewrite (usage_scanFile_Normal _ _ _ Hscan). simpl.
  apply Forall_forall. intros data (page & Hin & Hdata)%list_elem_of_omap.
  rewrite Forall_forall in Hpages. destruct (Hpages _ Hin) as [groups Hg].
  destruct (page_data_cases _ _ Hg) as [[_ Hnone]|(Hkeys & Hgroups & Hsome)];
    [congruence|].
  rewrite Hsome in Hdata. injection Hdata as <-. simpl. split_and!; [done| |].
  - apply Forall_forall. intros group Hgroup.
    destruct (page_group_spec localeCompare _ _ _ Hg Hgroup)
      as (first & rest & _ & _ & _ & _ & Hi).
    intros Hnil. rewrite Hnil in Hi. apply (f_equal length) in Hi.
    by rewrite (Permutation_length (Array_sort_Permutation _ _)) in Hi.
  - destruct (page_group_keys page); [done|simpl; lia].
Qed.

Lemma pageBreakdown_spec pages :
  Forall (λ page, ∃ groups, Js.getInstancesForPage localeCompare page = Normal groups) pages →
  (λ data, (pageId data, pageName data, instanceCount data)) <$>
    omap (page_data localeCompare) pages =
  (λ page, (page_id page, page_name page, length (page_group_keys page))) <$>
    filter (λ page, page_group_keys page ≠ []) pages.
Proof.
  induction 1 as [|page pages [groups Hg] _ IH]; [done|].
  csimpl. rewrite filter_cons.
  destruct (page_data_cases _ _ Hg) as [[Hkeys ->]|(Hkeys & _ & ->)].
  - by rewrite decide_False by (by intros ?).
  - rewrite decide_True by done. csimpl. by rewrite IH.
Qed.

Lemma page_group_keys_length page :
  length (page_group_keys page) = length (omap qualifying_definition (page_nodes page)).
Proof. unfold page_group_keys. by rewrite length_fmap. Qed.

Lemma instance_counts_spec pages :
  Forall (λ page, ∃ groups, Js.getInstancesForPage localeCompare page = Normal groups) pages →
  instanceCount <$> omap (page_data localeCompare) pages =
    filter (λ n, n ≠ 0)
      ((λ page, length (omap qualifying_definition (page_nodes page))) <$> pages) ∧
  sum_list (instanceCount <$> omap (page_data localeCompare) pages) =
    length (page ← pages; omap qualifying_definition (page_nodes page)).
Proof.
  induction 1 as [|page pages [groups Hg] _ [IH1 IH2]]; [done|].
  rewrite fmap_cons, filter_cons, bind_cons, length_app, <- page_group_keys_length.
  destruct (page_data_cases _ _ Hg) as [[Hkeys Hdata]|(Hkeys & _ & Hdata)].
  - rewrite omap_cons_app, Hdata, Hkeys. simpl. split; [exact IH1|exact IH2].
  - rewrite omap_cons_app, Hdata. simpl.
    rewrite decide_True by (by destruct (page_group_keys page)).
    split; [f_equal; exact IH1|f_equal; exact IH2].
Qed.

(** X5. Counts: a page's [instanceCount] is the number of its qualifying
    instances, and [totalInstances] the number of qualifying instances of
    the file. *)
Theorem instance_counts_are_numbers_of_qualifying_instances figma summary :
  Js.scanFile localeCompare figma = Normal summary →
  instanceCount <$> pageBreakdown summary =
    filter (λ n, n ≠ 0)
      ((λ page, length (omap qualifying_definition (page_nodes page))) <$>
         root_children figma) ∧
  totalInstances summary =
    length (page ← root_children figma; omap qualifying_definition (page_nodes page)).
Proof.
  intros Hscan. pose proof (scanFile_traversals _ _ Hscan) as Hpages.
  rewrite (usage_scanFile_Normal _ _ _ Hscan). simpl.
  by apply instance_counts_spec.
Qed.

(** X6. Pages: [pageBreakdown] lists, in document order, exactly the pages
    that have a qualifying instance, each under its own id and name. *)
Theorem pageBreakdown_lists_pages_with_instances_in_order figma summary :
  Js.scanFile localeCompare figma = Normal summary →
  (λ data, (pageId data, pageName data)) <$> pageBreakdown summary =
  (λ page, (page_id page, page_name page)) <$>
    filter (λ page, omap qualifying_definition (page_nodes page) ≠ [])
           (root_children figma).
Proof.
  intros Hscan. pose proof (scanFile_traversals _ _ Hscan) as Hpages.
  rewrite (usage_scanFile_Normal _ _ _ Hscan). simpl.
  pose proof (pageBreakdown_spec _ Hpages) as Hspec.
  apply (f_equal (fmap fst)) in Hspec. rewrite <- !list_fmap_compose in Hspec.
  etrans; [exact Hspec|]. f_equal.
  apply list_filter_iff. intros page. unfold page_group_keys.
  by destruct (omap qualifying_definition (page_nodes page)).
Qed.

(** X7. Bounds: there are never more unique components than instances, nor
    more pages than instances; and a summary that has a page has a
    component. *)
Theorem unique_components_bounded_by_instances figma summary :
  Js.scanFile localeCompare figma = Normal summary →
  totalUniqueComponents summary ≤ totalInstances summary ∧
  length (pageBreakdown summary) ≤ totalInstances summary ∧
  (pageBreakdown summary ≠ [] → 0 < totalUniqueComponents summary).
Proof.
  intros Hscan. pose proof (scanFile_traversals _ _ Hscan) as Hpages.
  rewrite (usage_scanFile_Normal _ _ _ Hscan). simpl.
  assert (sum_list (instanceCount <$> omap (page_data localeCompare) (root_children figma)) =
          length (file_group_keys figma) ∧
          length (omap (page_data localeCompare) (root_children figma)) ≤
          length (file_group_keys figma) ∧
          (omap (page_data localeCompare) (root_children figma) ≠ [] →
           file_group_keys figma ≠ [])) as (Hsum & Hlen & Hne).
  { unfold file_group_keys.
    induction Hpages as [|page pages [groups Hg] _ (IH1 & IH2 & IH3)]; [done|].
    csimpl. rewrite length_app.
    destruct (page_data_cases _ _ Hg) as [[Hkeys ->]|(Hkeys & _ & ->)].
    - rewrite Hkeys. simpl. done.
    - csimpl. rewrite IH1. split_and!; [done| |].
      + destruct (page_group_keys page); [done|simpl; lia].
      + intros _. by destruct (page_group_keys page). }
  rewrite Hsum. split_and!; [apply size_list_to_set_le|done|].
  intros Hpb. specialize (Hne Hpb).
  destruct (file_group_keys figma) as [|key keys]; [done|].
  rewrite list_to_set_cons. apply Nat.neq_0_lt_0, size_non_empty_iff. set_solver.
Qed.

(** X8. Names: no group and no instance record is emitted with an empty name;
    an empty name has been replaced by its placeholder. *)
Theorem emitted_names_are_not_empty figma summary :
  Js.scanFile localeCompare figma = Normal summary →
  Forall (λ page,
            Forall (λ group,
                      componentName group ≠ EmptyString ∧
                      Forall (λ usage,
                                usage_name usage ≠ EmptyString ∧
                                usage_componentName usage ≠ EmptyString)
                             (instances group))
                   (componentGroups page))
         (pageBreakdown summary).
Proof.
  intros Hscan. pose proof (scanFile_traversals _ _ Hscan) as Hpages.
  rewrite (usage_scanFile_Normal _ _ _ Hscan). simpl.
  apply Forall_forall. intros data (page & Hin & Hdata)%list_elem_of_omap.
  rewrite Forall_forall in Hpages. destruct (Hpages _ Hin) as [groups Hg].
  destruct (page_data_cases _ _ Hg) as [[_ Hnone]|(_ & _ & Hsome)]; [congruence|].
  rewrite Hsome in Hdata. injection Hdata as <-. simpl.
  apply Forall_forall. intros group Hgroup.
  destruct (page_group_spec localeCompare _ _ _ Hg Hgroup)
    as (first & rest & _ & _ & _ & -> & ->).
  split; [by apply str_or_nonempty|].
  apply Forall_forall. intros usage Husage.
  rewrite (Array_sort_Permutation (compare_usages localeCompare)) in Husage.
  apply list_elem_of_fmap in Husage as (p & -> & _). simpl.
  split; by apply str_or_nonempty.
Qed.

(** X9. Faults: [scanFile] throws exactly when the traversal of some page
    faults, and then with the fault of the first such page in document
    order. *)
Theorem scanFile_throws_first_traversal_fault figma e :
  Js.scanFile localeCompare figma = Throw e ↔
  ∃ before page after,
    root_children figma = before ++ page :: after ∧
    Forall (λ page, ∃ nodes, descendants page = Normal nodes) before ∧
    descendants page = Throw e.
Proof.
  rewrite usage_scanFile_unfold.
  generalize (([], 0, ∅) : ScanVars).
  induction (root_children figma) as [|page pages IH]; intros vars.
  - split; [done|]. intros (before & page & after & Heq & _). by destruct before.
  - cbn [for_of]. destruct vars as [[pb t] ks].
    destruct (descendants page) as [nodes|e'] eqn:Hd.
    + destruct (getInstancesForPage_total localeCompare page nodes Hd) as [groups Hg].
      rewrite (usage_scan_step_spec _ _ _ _ _ _ Hg), IH. split.
      * intros (before & page' & after & -> & Hb & Hp).
        exists (page :: before), page', after. split_and!; [done| |done].
        constructor; eauto.
      * intros (before & page' & after & Heq & Hb & Hp).
        destruct before as [|page0 before]; simplify_eq/=; [congruence|].
        apply Forall_cons in Hb as [_ Hb]. eauto 10.
    + apply (getInstancesForPage_Throw localeCompare) in Hd as Hg.
      unfold scan_step. rewrite Hg. simpl. split.
      * intros [= <-]. exists [], page, pages. split_and!; [done|constructor|done].
      * intros (before & page' & after & Heq & Hb & Hp).
        destruct before as [|page0 before]; simplify_eq/=; try congruence.
        apply Forall_cons in Hb as [[nodes Hn] _]. congruence.
Qed.

Lemma group_loop_skips (instances : list BaseNode) m :
  for_of instances group_step m =
  for_of (filter (λ node, is_Some (definition_of node)) instances) group_step m.
Proof.
  revert m. induction instances as [|instance instances IH]; intros m; [done|].
  rewrite filter_cons. destruct (decide (is_Some (definition_of instance))) as [Hs|Hn].
  - cbn [for_of]. destruct (group_step m instance); [apply IH|done].
  - cbn [for_of]. unfold group_step at 1. unfold definition_of in Hn.
    destruct (mainComponent instance); [apply IH..|]. destruct Hn. eauto.
Qed.

Lemma qualifying_instances_nodes (nodes : list BaseNode) :
  (qualifying_instances nodes).*1 =
  filter (λ node, is_Some (definition_of node)) (filter is_instance nodes).
Proof.
  unfold qualifying_instances.
  induction (filter is_instance nodes) as [|node l IH]; [done|].
  rewrite omap_cons_app, fmap_app, filter_cons, IH. unfold with_definition at 1.
  destruct (decide (is_Some (definition_of node))) as [[main Hm]|Hn].
  - by rewrite Hm.
  - destruct (definition_of node); [|done]. destruct Hn. eauto.
Qed.

(** X10. Only qualifying instances matter: two pages whose traversals yield the
    same instances with a definition, in the same order, have the same
    groups, whatever other nodes they hold. *)
Theorem groups_depend_on_qualifying_instances_only page1 page2 nodes1 nodes2 :
  descendants page1 = Normal nodes1 →
  descendants page2 = Normal nodes2 →
  qualifying_instances nodes1 = qualifying_instances nodes2 →
  Js.getInstancesForPage localeCompare page1 = Js.getInstancesForPage localeCompare page2.
Proof.
  intros Hd1 Hd2 Hq. rewrite !getInstancesForPage_unfold, Hd1, Hd2. simpl.
  rewrite (group_loop_skips (filter is_instance nodes1)),
    (group_loop_skips (filter is_instance nodes2)).
  by rewrite <- !qualifying_instances_nodes, Hq.
Qed.

End WithLocale.
End InstanceUsageExtras.

(** ** Pipeline 2: properties of the summary *)

Module IntegrityExtras.
Import Integrity IntegrityProofs.

#[global] Instance DetachedType_eq_dec : EqDecision DetachedType.
Proof. solve_decision. Defined.

#[global] Instance ComponentNode_eq_dec : EqDecision ComponentNode.
Proof. solve_decision. Defined.

#[global] Instance MainComponentRef_eq_dec : EqDecision MainComponentRef.
Proof. solve_decision. Defined.

Lemma is_component_iff item : is_component item ↔ item_type item = type_component.
Proof. unfold is_component. by destruct (item_type item). Qed.

Lemma is_variable_iff item : is_variable item ↔ item_type item = type_variable.
Proof. unfold is_variable. by destruct (item_type item). Qed.

Lemma filter_variable_node_items figma page node :
  filter is_variable (node_items figma page node) = node_variable_items figma page node.
Proof.
  unfold node_items. rewrite filter_app.
  assert (filter is_variable
            (if Js.isDetachedComponent node then [component_item node page] else []) = [])
    as -> by (by destruct (Js.isDetachedComponent node)).
  unfold node_variable_items. destruct (boundVariables node) as [| |boundVars]; [done..|].
  simpl. induction (filter _ (Object_keys boundVars)) as [|key keys IH]; [done|].
  csimpl. rewrite filter_cons_True by done. by rewrite IH.
Qed.

Lemma filter_type_split (l : list DetachedItem) :
  length (filter is_component l) + length (filter is_variable l) = length l.
Proof.
  induction l as [|item l IH]; [done|]. rewrite !filter_cons.
  assert (is_component item ∧ ¬ is_variable item ∨ ¬ is_component item ∧ is_variable item)
    as [[Hc Hv]|[Hc Hv]].
  { rewrite is_component_iff, is_variable_iff. destruct (item_type item); naive_solver. }
  - rewrite decide_True, decide_False by done. simpl. lia.
  - rewrite decide_False, decide_True by done. simpl. lia.
Qed.

Lemma page_data_items figma page data :
  page_data figma page = Some data →
  Js.getDetachedItemsForPage figma page = Normal (items data) ∧
  items data ≠ [] ∧ pageId data = page_id page ∧ pageName data = page_name page.
Proof.
  unfold page_data.
  destruct (Js.getDetachedItemsForPage figma page) as [[|item l]|e]; [done| |done].
  by intros [= <-].
Qed.

Lemma page_data_sum figma (f : list DetachedItem → nat) pages :
  f [] = 0 →
  Forall (λ page, ∃ pageItems, Js.getDetachedItemsForPage figma page = Normal pageItems) pages →
  sum_list ((λ data, f (items data)) <$> omap (page_data figma) pages) =
  sum_list ((λ page, f (page_nodes page ≫= node_items figma page)) <$> pages).
Proof.
  intros Hf. induction 1 as [|page pages [pageItems Hg] _ IH]; [done|].
  csimpl. rewrite (page_data_spec _ _ _ Hg).
  destruct (page_nodes page ≫= node_items figma page) as [|item l]; csimpl.
  - by rewrite Hf, IH.
  - by rewrite IH.
Qed.

Lemma sum_list_length_bind {A B} (g : A → list B) (P : B → Prop) `{∀ x, Decision (P x)}
    (l : list A) :
  sum_list ((λ a, length (filter P (g a))) <$> l) = length (filter P (l ≫= g)).
Proof.
  induction l as [|a l IH]; [done|]. csimpl. by rewrite filter_app, length_app, IH.
Qed.

(** X11. Totals are counts of the emitted items: each total is the number of
    items of its type over [pageBreakdown], and the two totals add up to the
    number of items. *)
Theorem totals_count_emitted_items figma summary :
  Js.scanFile figma = Normal summary →
  totalDetachedComponents summary =
    sum_list ((λ page,
                 length (filter (λ item, item_type item = type_component) (items page)))
              <$> pageBreakdown summary) ∧
  totalDetachedVariables summary =
    sum_list ((λ page,
                 length (filter (λ item, item_type item = type_variable) (items page)))
              <$> pageBreakdown summary) ∧
  totalDetachedComponents summary + totalDetachedVariables summary =
    sum_list (length ∘ items <$> pageBreakdown summary).
Proof.
  intros Hscan. pose proof (scanFile_pages_Normal _ _ Hscan) as Hpages.
  rewrite (integrity_scanFile_Normal _ _ Hscan). simpl.
  assert (∀ l : list DetachedItem,
            filter (λ item, item_type item = type_component) l = filter is_component l) as Hc.
  { intros l. apply list_filter_iff. intros item. by rewrite is_component_iff. }
  assert (∀ l : list DetachedItem,
            filter (λ item, item_type item = type_variable) l = filter is_variable l) as Hv.
  { intros l. apply list_filter_iff. intros item. by rewrite is_variable_iff. }
  assert (length (filter is_component (file_items figma)) =
          sum_list ((λ page, length (filter is_component (items page))) <$>
                      omap (page_data figma) (root_children figma))) as Hcs.
  { rewrite (page_data_sum figma (λ l, length (filter is_component l))) by done.
    unfold file_items. by rewrite sum_list_length_bind. }
  assert (length (filter is_variable (file_items figma)) =
          sum_list ((λ page, length (filter is_variable (items page))) <$>
                      omap (page_data figma) (root_children figma))) as Hvs.
  { rewrite (page_data_sum figma (λ l, length (filter is_variable l))) by done.
    unfold file_items. by rewrite sum_list_length_bind. }
  split_and!.
  - rewrite Hcs. f_equal. apply list_fmap_ext. intros _ page _. by rewrite Hc.
  - rewrite Hvs. f_equal. apply list_fmap_ext. intros _ page _. by rewrite Hv.
  - rewrite filter_type_split.
    change (length ∘ items) with (λ data, length (items data)).
    rewrite (page_data_sum figma length) by done.
    unfold file_items. clear.
    induction (root_children figma) as [|page pages IH]; [done|].
    csimpl. by rewrite length_app, IH.
Qed.

(** X12. What the totals count in the document: [totalDetachedComponents] is
    the number of INSTANCE nodes with a null definition, and
    [totalDetachedVariables] the number of bound properties, over all nodes,
    whose id is a non-empty string that resolves to no live variable. *)
Theorem totals_count_orphans_and_broken_bindings figma summary :
  Js.scanFile figma = Normal summary →
  totalDetachedComponents summary =
    length (filter (λ node, node_type node = "INSTANCE" ∧ mainComponent node = MainNull)
                   (root_children figma ≫= page_nodes)) ∧
  totalDetachedVariables summary =
    length (page ← root_children figma; node ← page_nodes page;
            match boundVariables node with
            | BoundObject boundVars =>
                filter (λ propertyName, broken_property figma boundVars propertyName = true)
                       (Object_keys boundVars)
            | BoundMissing | BoundFalsy => []
            end).
Proof.
  intros Hscan. rewrite (integrity_scanFile_Normal _ _ Hscan). simpl. clear Hscan.
  unfold file_items. split.
  - induction (root_children figma) as [|page pages IH]; [done|].
    csimpl. rewrite !filter_app, !length_app, IH. f_equal.
    rewrite filter_component_node_items, length_fmap. f_equal.
    apply list_filter_iff. intros node. apply isDetachedComponent_spec.
  - induction (root_children figma) as [|page pages IH]; [done|].
    csimpl. rewrite !filter_app, !length_app, IH. f_equal.
    induction (page_nodes page) as [|node nodes IHn]; [done|].
    csimpl. rewrite !filter_app, !length_app, IHn. f_equal.
    rewrite filter_variable_node_items. unfold node_variable_items.
    destruct (boundVariables node); [done..|]. by rewrite length_fmap.
Qed.

Lemma node_items_elem figma page node item :
  item ∈ node_items figma page node →
  item = component_item node page ∧ Js.isDetachedComponent node = true ∨
  ∃ boundVars propertyName,
    boundVariables node = BoundObject boundVars ∧
    propertyName ∈ Object_keys boundVars ∧
    broken_property figma boundVars propertyName = true ∧
    item = variable_item node page propertyName.
Proof.
  unfold node_items, node_variable_items. intros [Hc|Hv]%elem_of_app.
  - left. destruct (Js.isDetachedComponent node); [|by apply not_elem_of_nil in Hc].
    by apply list_elem_of_singleton in Hc.
  - right. destruct (boundVariables node) as [| |boundVars];
      [by apply not_elem_of_nil in Hv..|].
    apply list_elem_of_fmap in Hv as (propertyName & -> & [Hb Hin]%list_elem_of_filter).
    eauto 10.
Qed.

Lemma page_items_elem figma page pageItems item :
  Js.getDetachedItemsForPage figma page = Normal pageItems →
  item ∈ pageItems →
  ∃ node, node ∈ page_nodes page ∧ item ∈ node_items figma page node.
Proof.
  intros [_ ->]%getDetachedItemsForPage_Normal (node & Hitem & Hnode)%list_elem_of_bind.
  eauto.
Qed.

(** X13. Page linkage: every item of an entry of [pageBreakdown] carries the id
    and the name of that entry's page. *)
Theorem items_carry_their_page figma summary :
  Js.scanFile figma = Normal summary →
  Forall (λ page,
            Forall (λ item, item_pageId item = pageId page ∧
                            item_pageName item = pageName page)
                   (items page))
         (pageBreakdown summary).
Proof.
  intros Hscan. rewrite (integrity_scanFile_Normal _ _ Hscan). simpl.
  apply Forall_forall. intros data (page & _ & Hdata)%list_elem_of_omap.
  apply page_data_items in Hdata as (Hg & _ & -> & ->).
  apply Forall_forall. intros item Hitem.
  destruct (page_items_elem _ _ _ _ Hg Hitem) as (node & _ & Hin).
  by destruct (node_items_elem _ _ _ _ Hin) as [[-> _]|(bv & p & _ & _ & _ & ->)].
Qed.

(** X14. Shape of an item: a component item has no metadata; a variable item
    has exactly the metadata [property] and its name ends with the
    separator and that property.  No item has an empty name. *)
Theorem items_are_well_shaped figma page pageItems :
  Js.getDetachedItemsForPage figma page = Normal pageItems →
  Forall (λ item,
            item_name item ≠ EmptyString ∧
            match item_type item with
            | type_component => item_metadata item = None
            | type_variable =>
                ∃ prefix propertyName,
                  item_metadata item = Some [("property", propertyName)] ∧
                  item_name item = prefix +:+ " · " +:+ propertyName
            end)
         pageItems.
Proof.
  intros Hg. apply Forall_forall. intros item Hitem.
  destruct (page_items_elem _ _ _ _ Hg Hitem) as (node & _ & Hin).
  destruct (node_items_elem _ _ _ _ Hin) as [[-> _]|(bv & p & _ & _ & _ & ->)]; simpl.
  - split; [|done]. by case_decide.
  - split; [|eauto]. by destruct (if decide _ then _ else _).
Qed.

(** X15. No false report: every variable item of a page stems from a node of
    the page and one of its bound properties whose binding id is a non-empty
    string for which the registry answered that there is no such variable
    (or for which there is no registry). *)
Theorem variable_items_are_unresolved_bindings figma page pageItems item :
  Js.getDetachedItemsForPage figma page = Normal pageItems →
  item ∈ pageItems →
  item_type item = type_variable →
  ∃ node boundVars propertyName id,
    node ∈ page_nodes page ∧
    boundVariables node = BoundObject boundVars ∧
    propertyName ∈ Object_keys boundVars ∧
    get_property boundVars propertyName = Some (BindingObject (VString id)) ∧
    id ≠ EmptyString ∧
    lookup_variable figma id = Normal None ∧
    item = variable_item node page propertyName.
Proof.
  intros Hg Hitem Htype.
  destruct (page_items_elem _ _ _ _ Hg Hitem) as (node & Hnode & Hin).
  destruct (node_items_elem _ _ _ _ Hin) as [[-> _]|(bv & p & Hbv & Hp & Hbroken & ->)];
    [done|].
  unfold broken_property, binding_id in Hbroken.
  destruct (get_property bv p) as [[|[| | | |id]]|] eqn:Hget; try done.
  case_decide as Hid; [done|].
  destruct (lookup_variable figma id) as [[v|]|e] eqn:Hlookup; try done.
  exists node, bv, p, id. by split_and!.
Qed.

(** X16. Without the variables API every binding that carries a non-empty
    string id is reported. *)
Theorem without_variables_api_every_binding_is_reported figma node page boundVars :
  variables figma = None →
  boundVariables node = BoundObject boundVars →
  Js.extractDetachedVariables figma node page =
  Normal (variable_item node page <$>
            filter (λ propertyName, is_Some (binding_id (get_property boundVars propertyName)))
                   (Object_keys boundVars)).
Proof.
  intros Hapi Hbv.
  rewrite (extractDetachedVariables_total figma node page).
  - unfold node_variable_items. rewrite Hbv. do 2 f_equal.
    apply list_filter_iff. intros p. unfold broken_property, lookup_variable. rewrite Hapi.
    destruct (binding_id (get_property boundVars p)); [|split; [done|by intros [? ?]]].
    split; eauto.
  - intros id. unfold lookup_variable. rewrite Hapi. eauto.
Qed.

(** X17. A fault of the registry is not swallowed: when the lookup of the first
    binding whose lookup does not answer faults, the extraction throws that
    fault. *)
Theorem registry_fault_aborts_extraction figma node page boundVars before propertyName after id e :
  boundVariables node = BoundObject boundVars →
  Object_keys boundVars = before ++ propertyName :: after →
  Forall (λ key, ∀ id, binding_id (get_property boundVars key) = Some id →
                       ∃ variable, lookup_variable figma id = Normal variable) before →
  binding_id (get_property boundVars propertyName) = Some id →
  lookup_variable figma id = Throw e →
  Js.extractDetachedVariables figma node page = Throw e.
Proof.
  intros Hbv Hkeys Hbefore Hid Hthrow.
  rewrite extractDetachedVariables_unfold, Hbv, Hkeys, for_of_app.
  destruct (extract_loop_total figma node page boundVars before [] Hbefore) as [items ->].
  cbn [mbind Completion_bind for_of]. by rewrite extract_step_spec, Hid, Hthrow.
Qed.

(** X18. The scan returns a summary whenever the traversals succeed and the
    registry answers every id. *)
Theorem scanFile_returns_when_host_answers figma :
  Forall (λ page, ∃ nodes, descendants page = Normal nodes) (root_children figma) →
  (∀ id, ∃ variable, lookup_variable figma id = Normal variable) →
  ∃ summary, Js.scanFile figma = Normal summary.
Proof.
  intros Hpages Hreg. rewrite integrity_scanFile_unfold.
  generalize (([], 0, 0) : ScanVars).
  induction Hpages as [|page pages [nodes Hd] _ IH]; intros [[pb c] v]; cbn [for_of].
  - simpl. eauto.
  - rewrite (integrity_scan_step_spec _ _ _ _ _ _
               (getDetachedItemsForPage_total _ _ _ Hd Hreg)).
    apply IH.
Qed.

(** X19. Pages: [pageBreakdown] lists, in document order, exactly the pages
    that have an item, each under its own id and name, and no entry has an
    empty item list. *)
Theorem pageBreakdown_lists_pages_with_items_in_order figma summary :
  Js.scanFile figma = Normal summary →
  (λ data, (pageId data, pageName data)) <$> pageBreakdown summary =
    (λ page, (page_id page, page_name page)) <$>
      filter (λ page, page_nodes page ≫= node_items figma page ≠ []) (root_children figma) ∧
  Forall (λ data, items data ≠ []) (pageBreakdown summary).
Proof.
  intros Hscan. pose proof (scanFile_pages_Normal _ _ Hscan) as Hpages.
  rewrite (integrity_scanFile_Normal _ _ Hscan). simpl. split.
  - induction Hpages as [|page pages [pageItems Hg] _ IH]; [done|].
    rewrite filter_cons. csimpl. rewrite (page_data_spec _ _ _ Hg).
    destruct (page_nodes page ≫= node_items figma page) as [|item l].
    + by rewrite decide_False by (by intros ?).
    + rewrite decide_True by done. csimpl. by rewrite IH.
  - apply Forall_forall. intros data (page & _ & Hdata)%list_elem_of_omap.
    by apply page_data_items in Hdata as (_ & ? & _).
Qed.

End IntegrityExtras.

(** ** The dispatcher *)

Module DispatcherExtras.

(** The messages neither branch of the [switch] acts on: a value that is not
    an object, an object whose [type] is neither 'scan' nor 'navigate', and
    a navigate request without a string [nodeId]. *)
Definition ignored (pluginMessage : PluginMessage) : Prop :=
  match pluginMessage with
  | NotObject _ => True
  | MessageObject type nodeId =>
      type ≠ VString "scan" ∧
      (type = VString "navigate" → ∀ id, nodeId ≠ Some (VString id))
  end.

Lemma strict_eq_string_spec v s : strict_eq_string v s = true ↔ v = VString s.
Proof.
  destruct v as [| | | |t]; simpl; try by split.
  rewrite String.eqb_eq. split; [by intros ->|by intros [= ->]].
Qed.

Section WithLocale.
Variable localeCompare : string → string → Z.

(** X20. Ignored messages are ignored silently: no call is made and the world
    is left as it is, in both scripts. *)
Theorem ignored_messages_change_nothing figma pluginMessage :
  ignored pluginMessage →
  (∀ w, InstanceUsage.Js.onmessage localeCompare figma pluginMessage w = Returned tt w) ∧
  (∀ w, Integrity.Js.onmessage figma pluginMessage w = Returned tt w).
Proof.
  destruct pluginMessage as [v|type nodeId]; [done|]. intros [Hscan Hnav].
  unfold InstanceUsage.Js.onmessage, Integrity.Js.onmessage.
  destruct (strict_eq_string type "scan") eqn:E1;
    [by apply strict_eq_string_spec in E1|].
  destruct (strict_eq_string type "navigate") eqn:E2; [|done].
  apply strict_eq_string_spec in E2. specialize (Hnav E2).
  destruct nodeId as [[| | | |id]|]; try done. by destruct (Hnav id).
Qed.

(** X21. A scan request makes one of two call sequences: one results message,
    or one notice followed by one error message with the same text.  In both
    it posts exactly one message to the panel and leaves the current page
    alone. *)
Theorem scan_request_posts_one_message figma nodeId :
  (∀ w, ∃ new,
     InstanceUsage.Js.onmessage localeCompare figma (MessageObject (VString "scan") nodeId) w =
       Returned tt {| currentPage := currentPage w; calls := calls w ++ new |} ∧
     ((∃ data, new = [PostMessage (Results data)]) ∨
      (∃ message, new = [Notify message 2000; PostMessage (Error message)]))) ∧
  (∀ w, ∃ new,
     Integrity.Js.onmessage figma (MessageObject (VString "scan") nodeId) w =
       Returned tt {| currentPage := currentPage w; calls := calls w ++ new |} ∧
     ((∃ data, new = [PostMessage (Results data)]) ∨
      (∃ message, new = [Notify message 2000; PostMessage (Error message)]))).
Proof.
  split; intros w.
  - rewrite InstanceUsageProofs.usage_onmessage_scan.
    exists (InstanceUsageProofs.scan_response localeCompare figma). split; [done|].
    unfold InstanceUsageProofs.scan_response.
    destruct (InstanceUsage.Js.scanFile localeCompare figma); eauto.
  - rewrite IntegrityProofs.integrity_onmessage_scan.
    exists (IntegrityProofs.scan_response figma). split; [done|].
    unfold IntegrityProofs.scan_response.
    destruct (Integrity.Js.scanFile figma); eauto.
Qed.

(** X22. The results message of a scan carries the summary [scanFile] returned,
    as it is: also when [pageBreakdown] is empty, where the summary sent by
    [notifyEmptyState] is a literal, the one [scanFile] returned is the same
    value. *)
Theorem results_message_carries_scanFile_summary figma nodeId :
  (∀ summary w,
     InstanceUsage.Js.scanFile localeCompare figma = Normal summary →
     InstanceUsage.Js.onmessage localeCompare figma (MessageObject (VString "scan") nodeId) w =
     Returned tt
       {| currentPage := currentPage w;
          calls := calls w ++ [PostMessage (Results summary)] |}) ∧
  (∀ summary w,
     Integrity.Js.scanFile figma = Normal summary →
     Integrity.Js.onmessage figma (MessageObject (VString "scan") nodeId) w =
     Returned tt
       {| currentPage := currentPage w;
          calls := calls w ++ [PostMessage (Results summary)] |}).
Proof.
  split; intros summary w Hscan.
  - rewrite InstanceUsageProofs.usage_onmessage_scan.
    by rewrite (InstanceUsageProofs.scan_response_Normal _ _ _ Hscan).
  - rewrite IntegrityProofs.integrity_onmessage_scan.
    unfold IntegrityProofs.scan_response. rewrite Hscan.
    destruct (length (Integrity.pageBreakdown summary) =? 0) eqn:E; [|done].
    apply Nat.eqb_eq, nil_length_inv in E.
    by rewrite <- (IntegrityProofs.integrity_scanFile_empty figma summary).
Qed.

End WithLocale.

Import IntegrityProofs.

(** X23. [resolvePage] answers with the nearest proper ancestor of type PAGE:
    the result is a PAGE, it lies on the parent chain, and no ancestor before
    it is a PAGE; it answers null exactly when the chain has no PAGE.  The
    search starts at the parent: the node's own type plays no part. *)
Theorem resolvePage_finds_nearest_page_ancestor node :
  (∀ page,
     Integrity.Js.resolvePage node = Some page →
     node_type page = "PAGE" ∧
     ∃ nearer farther,
       ancestors node = nearer ++ page :: farther ∧
       Forall (λ ancestor, node_type ancestor ≠ "PAGE") nearer) ∧
  (Integrity.Js.resolvePage node = None ↔
   Forall (λ ancestor, node_type ancestor ≠ "PAGE") (ancestors node)).
Proof.
  rewrite resolvePage_spec. unfold page_ancestor.
  induction (ancestors node) as [|ancestor l [IH1 IH2]]; simpl.
  - split; [done|]. split; [constructor|done].
  - destruct (String.eqb_spec (node_type ancestor) "PAGE") as [Hp|Hp].
    + split.
      * intros page [= <-]. split; [done|]. exists [], l. by split; [|constructor].
      * split; [done|]. by intros [? _]%Forall_cons.
    + split.
      * intros page Hfind. destruct (IH1 _ Hfind) as (Htype & nearer & farther & -> & Hn).
        split; [done|]. exists (ancestor :: nearer), farther. split; [done|by constructor].
      * rewrite IH2, Forall_cons. naive_solver.
Qed.

(** X24. A fault of the node lookup is not caught: the navigate request raises
    it, and neither a notice nor a message is issued. *)
Theorem navigate_lookup_fault_escapes figma nodeId e w :
  getNodeById figma nodeId = Throw e →
  Integrity.Js.onmessage figma
    (MessageObject (VString "navigate") (Some (VString nodeId))) w = Raised e w.
Proof.
  intros Hthrow. cbn [Integrity.Js.onmessage strict_eq_string]. simpl.
  by rewrite focusNode_spec, Hthrow.
Qed.

End DispatcherExtras.

(** ** The dispatcher of the TypeScript sources *)

(** The request dispatcher as the TypeScript of pipeline 1 writes it.  The
    [PluginRequest] union and the casts ([as SceneNode | null],
    [as PageNode], [as BaseNode | null]) leave no trace at run time. *)
Module UsageTs.
Import InstanceUsage.
Section WithLocale.
Variable localeCompare : string → string → Z.

Definition sendResultsToUI (data : SummaryData) : Script SummaryData unit :=
  postMessage (Results data).

Definition notifyEmptyState : Script SummaryData unit :=
  postMessage (Results {| totalInstances := 0;
                          totalUniqueComponents := 0;
                          pageBreakdown := [] |}).

Definition handleScanRequest (figma : Figma) : Script SummaryData unit :=
  try_catch
    (summary <- call (Ts.scanFile localeCompare figma) ;;
     if length (pageBreakdown summary) =? 0 then notifyEmptyState
     else sendResultsToUI summary)%script
    (λ error,
       let message :=
         match error with
         | ThrownError message => message
         | ThrownValue _ => "Unexpected error during scan"
         end in
       (notify message 2000 ;;; postMessage (Error message))%script).

(** The [while (current)] loop of [resolvePage]. *)
Fixpoint resolvePage_loop (current : BaseNode) : option BaseNode :=
  if String.eqb (node_type current) "PAGE" then Some current
  else
    match node_parent current with
    | Some (Some parent) => resolvePage_loop parent
    | Some None | None => None
    end.

Definition resolvePage (node : BaseNode) : option BaseNode :=
  match node_parent node with
  | Some (Some current) => resolvePage_loop current
  | Some None | None => None
  end.

Definition focusNode (figma : Figma) (nodeId : string) : Script SummaryData unit :=
  (node <- call (getNodeById figma nodeId) ;;
   match node with
   | None =>
       notify "Target node not found. It may have been deleted." 2000 ;;;
       postMessage (Error "Node not found or removed.")
   | Some node =>
       let page := resolvePage node in
       match page with
       | Some page => set_currentPage page
       | None => script_ret tt
       end ;;;
       scrollAndZoomIntoView [node]
   end)%script.

(** [figma.ui.onmessage] *)
Definition onmessage (figma : Figma) (pluginMessage : PluginMessage)
  : Script SummaryData unit :=
  match pluginMessage with
  | NotObject _ => script_ret tt
  | MessageObject type nodeId =>
      if strict_eq_string type "scan" then handleScanRequest figma
      else if strict_eq_string type "navigate" then
        match nodeId with
        | Some (VString nodeId) => focusNode figma nodeId
        | Some _ | None => script_ret tt
        end
      else script_ret tt
  end.

(** [figma.on('run', ...)] *)
Definition on_run : Script SummaryData unit := postMessage Ready.
End WithLocale.
End UsageTs.

(** The request dispatcher as the TypeScript of pipeline 2 writes it. *)
Module IntegrityTs.
Import Integrity.

Definition sendResultsToUI (data : SummaryData) : Script SummaryData unit :=
  postMessage (Results data).

Definition notifyEmptyState : Script SummaryData unit :=
  postMessage (Results {| totalDetachedComponents := 0;
                          totalDetachedVariables := 0;
                          pageBreakdown := [] |}).

Definition handleScanRequest (figma : Figma) : Script SummaryData unit :=
  try_catch
    (summary <- call (Ts.scanFile figma) ;;
     if length (pageBreakdown summary) =? 0 then notifyEmptyState
     else sendResultsToUI summary)%script
    (λ error,
       let message :=
         match error with
         | ThrownError message => message
         | ThrownValue _ => "Unexpected error during scan"
         end in
       (notify message 2000 ;;; postMessage (Error message))%script).

(** The [while (current)] loop of [resolvePage]. *)
Fixpoint resolvePage_loop (current : BaseNode) : option BaseNode :=
  if String.eqb (node_type current) "PAGE" then Some current
  else
    match node_parent current with
    | Some (Some parent) => resolvePage_loop parent
    | Some None | None => None
    end.

Definition resolvePage (node : BaseNode) : option BaseNode :=
  match node_parent node with
  | Some (Some current) => resolvePage_loop current
  | Some None | None => None
  end.

Definition focusNode (figma : Figma) (nodeId : string) : Script SummaryData unit :=
  (node <- call (getNodeById figma nodeId) ;;
   match node with
   | None =>
       notify "Target node not found. It may have been deleted." 2000 ;;;
       postMessage (Error "Node not found or removed.")
   | Some node =>
       let page := resolvePage node in
       match page with
       | Some page => set_currentPage page
       | None => script_ret tt
       end ;;;
       scrollAndZoomIntoView [node]
   end)%script.

(** [figma.ui.onmessage] *)
Definition onmessage (figma : Figma) (pluginMessage : PluginMessage)
  : Script SummaryData unit :=
  match pluginMessage with
  | NotObject _ => script_ret tt
  | MessageObject type nodeId =>
      if strict_eq_string type "scan" then handleScanRequest figma
      else if strict_eq_string type "navigate" then
        match nodeId with
        | Some (VString nodeId) => focusNode figma nodeId
        | Some _ | None => script_ret tt
        end
      else script_ret tt
  end.

(** [figma.on('run', ...)] *)
Definition on_run : Script SummaryData unit := postMessage Ready.
End IntegrityTs.

(** X25. On every document, message and world the dispatcher of each TypeScript
    source does what the dispatcher of its compiled script does, and so do
    its [resolvePage] and its start-up signal. *)
Theorem typescript_dispatcher_matches_compiled_script :
  (∀ localeCompare figma pluginMessage w,
     UsageTs.onmessage localeCompare figma pluginMessage w =
     InstanceUsage.Js.onmessage localeCompare figma pluginMessage w) ∧
  (∀ figma pluginMessage w,
     IntegrityTs.onmessage figma pluginMessage w =
     Integrity.Js.onmessage figma pluginMessage w) ∧
  (∀ node, UsageTs.resolvePage node = InstanceUsage.Js.resolvePage node) ∧
  (∀ node, IntegrityTs.resolvePage node = Integrity.Js.resolvePage node) ∧
  (∀ node, InstanceUsage.Js.resolvePage node = Integrity.Js.resolvePage node) ∧
  (∀ w, UsageTs.on_run w = InstanceUsage.Js.on_run w) ∧
  (∀ w, IntegrityTs.on_run w = Integrity.Js.on_run w).
Proof. by split_and!. Qed.

(** ** Worked documents for the further properties *)

Module UsageExtrasExamples.
Import InstanceUsage InstanceUsageProofs InstanceUsageFacts InstanceUsageExtras UsageExamples.

Definition cover_groups : list ComponentGroup :=
  Eval vm_compute in
    match Js.getInstancesForPage caseInsensitiveCompare cover with
    | Normal groups => groups
    | Throw _ => []
    end.

(** The group of "Logo Set" on page "Cover". *)
Definition logo_group : ComponentGroup :=
  Eval vm_compute in default
    {| componentId := EmptyString; componentKey := None; componentName := EmptyString;
       instances := [] |}
    (cover_groups !! 1).

Lemma group_members_witness :
  instances logo_group =
  Array_sort (λ a b, caseInsensitiveCompare (usage_name a) (usage_name b))
    (usage_of <$> members "K1" (qualifying_instances (page_nodes cover))).
Proof.
  apply (group_members_are_instances_of_key caseInsensitiveCompare cover cover_groups logo_group).
  - vm_compute. reflexivity.
  - apply list_elem_of_further, list_elem_of_here.
Defined.

Lemma page_groups_keys_witness :
  NoDup ((λ group, opt_or (componentKey group) (componentId group)) <$> cover_groups) ∧
  ∀ p, p ∈ qualifying_instances (page_nodes cover) →
       ∃ group, group ∈ cover_groups ∧
                opt_or (componentKey group) (componentId group) = group_key p.2.
Proof.
  apply (page_groups_have_distinct_keys caseInsensitiveCompare cover cover_groups).
  vm_compute. reflexivity.
Defined.

Lemma group_header_witness :
  ∃ first,
    head (members (recorded_key logo_group) (qualifying_instances (page_nodes cover))) =
      Some first ∧
    componentId logo_group = comp_id first.2 ∧
    componentKey logo_group =
      (if decide (comp_key first.2 = EmptyString) then None else Some (comp_key first.2)) ∧
    componentName logo_group =
      (if decide (comp_name first.2 = EmptyString) then "Unnamed Component"
       else comp_name first.2).
Proof.
  apply (group_header_from_first_instance caseInsensitiveCompare cover cover_groups logo_group).
  - vm_compute. reflexivity.
  - apply list_elem_of_further, list_elem_of_here.
Defined.

Lemma not_empty_witness :
  Forall (λ page,
            componentGroups page ≠ [] ∧
            Forall (λ group, instances group ≠ []) (componentGroups page) ∧
            0 < instanceCount page)
         (pageBreakdown two_pages_summary).
Proof.
  apply (emitted_pages_and_groups_are_not_empty caseInsensitiveCompare two_pages).
  vm_compute. reflexivity.
Defined.

Lemma instance_counts_witness :
  instanceCount <$> pageBreakdown two_pages_summary =
    filter (λ n, n ≠ 0)
      ((λ page, length (omap qualifying_definition (page_nodes page))) <$>
         root_children two_pages) ∧
  totalInstances two_pages_summary =
    length (page ← root_children two_pages; omap qualifying_definition (page_nodes page)).
Proof.
  apply (instance_counts_are_numbers_of_qualifying_instances caseInsensitiveCompare two_pages).
  vm_compute. reflexivity.
Defined.

(** "Orphans" has no qualifying instance and is left out. *)
Definition three_pages : Figma := document [cover; orphans; details].

Lemma page_order_witness :
  (λ data, (pageId data, pageName data)) <$> pageBreakdown two_pages_summary =
  (λ page, (page_id page, page_name page)) <$>
    filter (λ page, omap qualifying_definition (page_nodes page) ≠ [])
           (root_children three_pages).
Proof.
  apply (pageBreakdown_lists_pages_with_instances_in_order caseInsensitiveCompare
           three_pages two_pages_summary).
  vm_compute. reflexivity.
Defined.

Lemma bounds_witness :
  totalUniqueComponents two_pages_summary ≤ totalInstances two_pages_summary ∧
  length (pageBreakdown two_pages_summary) ≤ totalInstances two_pages_summary ∧
  (pageBreakdown two_pages_summary ≠ [] → 0 < totalUniqueComponents two_pages_summary).
Proof.
  apply (unique_components_bounded_by_instances caseInsensitiveCompare two_pages).
  vm_compute. reflexivity.
Defined.

(** A page whose definition and instance have no name. *)
Definition nameless : PageNode :=
  {| page_id := "0:7"; page_name := "Nameless";
     descendants := Normal
       [scene_node "9:1" EmptyString "INSTANCE"
          (MainRef {| comp_id := "1:30"; comp_key := EmptyString;
                      comp_name := EmptyString |}) BoundMissing] |}.

Definition nameless_summary : SummaryData :=
  Eval vm_compute in
    match Js.scanFile caseInsensitiveCompare (document [nameless]) with
    | Normal summary => summary
    | Throw _ =>
        {| totalInstances := 0; totalUniqueComponents := 0; pageBreakdown := [] |}
    end.

Lemma names_witness :
  Forall (λ page,
            Forall (λ group,
                      componentName group ≠ EmptyString ∧
                      Forall (λ usage,
                                usage_name usage ≠ EmptyString ∧
                                usage_componentName usage ≠ EmptyString)
                             (instances group))
                   (componentGroups page))
         (pageBreakdown nameless_summary).
Proof.
  apply (emitted_names_are_not_empty caseInsensitiveCompare (document [nameless])).
  vm_compute. reflexivity.
Defined.

(** "Cover" stripped of everything but its instances with a definition. *)
Definition cover_instances_only : PageNode :=
  {| page_id := "0:8"; page_name := "Cover, instances only";
     descendants := Normal
       [scene_node "2:1" "Logo" "INSTANCE" (MainRef logo_set) BoundMissing;
        scene_node "2:3" "logo-small" "INSTANCE" (MainRef logo_set) BoundMissing;
        scene_node "2:4" "Header" "INSTANCE" (MainRef header) BoundMissing] |}.

Lemma qualifying_only_witness :
  Js.getInstancesForPage caseInsensitiveCompare cover =
  Js.getInstancesForPage caseInsensitiveCompare cover_instances_only.
Proof.
  apply (groups_depend_on_qualifying_instances_only caseInsensitiveCompare
           cover cover_instances_only _ _ eq_refl eq_refl).
  vm_compute. reflexivity.
Defined.

Lemma first_fault_witness :
  Js.scanFile caseInsensitiveCompare (document [cover; faulty; details]) =
  Throw (ThrownError "Page could not be loaded").
Proof.
  apply (scanFile_throws_first_traversal_fault caseInsensitiveCompare
           (document [cover; faulty; details])).
  exists [cover], faulty, [details]. split_and!; [reflexivity| |reflexivity].
  constructor; [|constructor]. eexists. reflexivity.
Defined.

End UsageExtrasExamples.

Module IntegrityExtrasExamples.
Import Integrity IntegrityProofs IntegrityExtras IntegrityExamples.

Definition frames_items : list DetachedItem :=
  Eval vm_compute in
    match Js.getDetachedItemsForPage file frames with
    | Normal pageItems => pageItems
    | Throw _ => []
    end.

Lemma totals_items_witness :
  totalDetachedComponents file_summary =
    sum_list ((λ page,
                 length (filter (λ item, item_type item = type_component) (items page)))
              <$> pageBreakdown file_summary) ∧
  totalDetachedVariables file_summary =
    sum_list ((λ page,
                 length (filter (λ item, item_type item = type_variable) (items page)))
              <$> pageBreakdown file_summary) ∧
  totalDetachedComponents file_summary + totalDetachedVariables file_summary =
    sum_list (length ∘ items <$> pageBreakdown file_summary).
Proof.
  apply (totals_count_emitted_items file file_summary). vm_compute. reflexivity.
Defined.

Lemma totals_nodes_witness :
  totalDetachedComponents file_summary =
    length (filter (λ node, node_type node = "INSTANCE" ∧ mainComponent node = MainNull)
                   (root_children file ≫= page_nodes)) ∧
  totalDetachedVariables file_summary =
    length (page ← root_children file; node ← page_nodes page;
            match boundVariables node with
            | BoundObject boundVars =>
                filter (λ propertyName, broken_property file boundVars propertyName = true)
                       (Object_keys boundVars)
            | BoundMissing | BoundFalsy => []
            end).
Proof.
  apply (totals_count_orphans_and_broken_bindings file file_summary).
  vm_compute. reflexivity.
Defined.

Lemma items_page_witness :
  Forall (λ page,
            Forall (λ item, item_pageId item = pageId page ∧
                            item_pageName item = pageName page)
                   (items page))
         (pageBreakdown file_summary).
Proof.
  apply (items_carry_their_page file file_summary). vm_compute. reflexivity.
Defined.

Lemma items_shape_witness :
  Forall (λ item,
            item_name item ≠ EmptyString ∧
            match item_type item with
            | type_component => item_metadata item = None
            | type_variable =>
                ∃ prefix propertyName,
                  item_metadata item = Some [("property", propertyName)] ∧
                  item_name item = prefix +:+ " · " +:+ propertyName
            end)
         frames_items.
Proof.
  apply (items_are_well_shaped file frames frames_items). vm_compute. reflexivity.
Defined.

Lemma no_false_report_witness :
  ∃ node boundVars propertyName id,
    node ∈ page_nodes frames ∧
    boundVariables node = BoundObject boundVars ∧
    propertyName ∈ Object_keys boundVars ∧
    get_property boundVars propertyName = Some (BindingObject (VString id)) ∧
    id ≠ EmptyString ∧
    lookup_variable file id = Normal None ∧
    variable_item frame frames "gap" = variable_item node frames propertyName.
Proof.
  apply (variable_items_are_unresolved_bindings file frames frames_items
           (variable_item frame frames "gap")).
  - vm_compute. reflexivity.
  - apply list_elem_of_further, list_elem_of_here.
  - reflexivity.
Defined.

Lemma without_api_witness :
  Js.extractDetachedVariables (document []) frame frames =
  Normal [variable_item frame frames "fill";
          variable_item frame frames "width";
          variable_item frame frames "gap"].
Proof.
  apply (without_variables_api_every_binding_is_reported (document []) frame frames
           [("fill", BindingObject (VString "VariableID:1:1"));
            ("width", BindingObject (VString "VariableID:1:2"));
            ("opacity", BindingAbsent);
            ("stroke", BindingObject (VNumber 42));
            ("radius", BindingObject (VString EmptyString));
            ("gap", BindingObject (VString "VariableID:9:9"))]).
  - reflexivity.
  - reflexivity.
Defined.

(** A registry that faults on "VariableID:1:2". *)
Definition faulty_registry_file : Figma :=
  {| root_children := [frames];
     variables := Some (λ id, if String.eqb id "VariableID:1:2"
                              then Throw (ThrownError "Registry unavailable")
                              else Normal None);
     getNodeById := λ _, Normal None |}.

Lemma registry_fault_witness :
  Js.extractDetachedVariables faulty_registry_file frame frames =
  Throw (ThrownError "Registry unavailable").
Proof.
  apply (registry_fault_aborts_extraction faulty_registry_file frame frames
           [("fill", BindingObject (VString "VariableID:1:1"));
            ("width", BindingObject (VString "VariableID:1:2"));
            ("opacity", BindingAbsent);
            ("stroke", BindingObject (VNumber 42));
            ("radius", BindingObject (VString EmptyString));
            ("gap", BindingObject (VString "VariableID:9:9"))]
           ["fill"] "width" ["opacity"; "stroke"; "radius"; "gap"] "VariableID:1:2").
  - reflexivity.
  - reflexivity.
  - constructor; [|constructor]. intros id [= <-]. eexists. reflexivity.
  - reflexivity.
  - reflexivity.
Defined.

Lemma scan_returns_witness : ∃ summary, Js.scanFile file = Normal summary.
Proof.
  apply (scanFile_returns_when_host_answers file).
  - constructor; [|constructor]. eexists. reflexivity.
  - intros id. unfold lookup_variable, file, registry. simpl.
    destruct (String.eqb id "VariableID:1:2"); eexists; reflexivity.
Defined.

Lemma items_page_order_witness :
  (λ data, (pageId data, pageName data)) <$> pageBreakdown file_summary =
    (λ page, (page_id page, page_name page)) <$>
      filter (λ page, page_nodes page ≫= node_items file page ≠ []) (root_children file) ∧
  Forall (λ data, items data ≠ []) (pageBreakdown file_summary).
Proof.
  apply (pageBreakdown_lists_pages_with_items_in_order file file_summary).
  vm_compute. reflexivity.
Defined.

End IntegrityExtrasExamples.

Module DispatcherExtrasExamples.
Import DispatcherExtras IntegrityProofs.

Lemma ignored_witness :
  (∀ w, InstanceUsage.Js.onmessage caseInsensitiveCompare (document [])
          (MessageObject (VString "navigate") (Some (VNumber 7))) w = Returned tt w) ∧
  (∀ w, Integrity.Js.onmessage (document [])
          (MessageObject (VString "navigate") (Some (VNumber 7))) w = Returned tt w).
Proof.
  apply (ignored_messages_change_nothing caseInsensitiveCompare (document [])
           (MessageObject (VString "navigate") (Some (VNumber 7)))).
  split; [done|]. intros _ id. done.
Defined.

Lemma results_message_witness :
  InstanceUsage.Js.onmessage caseInsensitiveCompare UsageExamples.two_pages
    (MessageObject (VString "scan") None) UsageExamples.start =
  Returned tt
    {| currentPage := currentPage UsageExamples.start;
       calls := [PostMessage (Results UsageExamples.two_pages_summary)] |} ∧
  Integrity.Js.onmessage IntegrityExamples.file
    (MessageObject (VString "scan") None) IntegrityExamples.start =
  Returned tt
    {| currentPage := currentPage IntegrityExamples.start;
       calls := [PostMessage (Results IntegrityExamples.file_summary)] |}.
Proof.
  split.
  - apply (proj1 (results_message_carries_scanFile_summary caseInsensitiveCompare
                    UsageExamples.two_pages None)
                 UsageExamples.two_pages_summary UsageExamples.start).
    vm_compute. reflexivity.
  - apply (proj2 (results_message_carries_scanFile_summary caseInsensitiveCompare
                    IntegrityExamples.file None)
                 IntegrityExamples.file_summary IntegrityExamples.start).
    vm_compute. reflexivity.
Defined.

Lemma resolvePage_witness :
  node_type IntegrityExamples.cover_page = "PAGE" ∧
  ∃ nearer farther,
    ancestors IntegrityExamples.button =
      nearer ++ IntegrityExamples.cover_page :: farther ∧
    Forall (λ ancestor, node_type ancestor ≠ "PAGE") nearer.
Proof.
  apply (proj1 (resolvePage_finds_nearest_page_ancestor IntegrityExamples.button)).
  reflexivity.
Defined.

(** A host whose node lookup faults. *)
Definition faulty_lookup_file : Figma :=
  {| root_children := [];
     variables := None;
     getNodeById := λ _, Throw (ThrownError "Lookup unavailable") |}.

Lemma lookup_fault_witness :
  Integrity.Js.onmessage faulty_lookup_file
    (MessageObject (VString "navigate") (Some (VString "8:2"))) IntegrityExamples.start =
  Raised (ThrownError "Lookup unavailable") IntegrityExamples.start.
Proof.
  apply (navigate_lookup_fault_escapes faulty_lookup_file "8:2"). reflexivity.
Defined.

End DispatcherExtrasExamples.
